(** * Feature engineering for the gold trading bot

    A shallow embedding of [src/features/Feature_Engineering_Gold.py]: the
    class [GoldFeatureEngineering], its constructor and its four enrichment
    passes, over a model of the parts of pandas, numpy and [ta] the class
    calls.

    - Floating point values are IEEE 754 binary64 numbers, as specified by
      the standard library's [SpecFloat] (precision 53, maximal exponent
      1024), with a single NaN.
    - A [DataFrame] is a time index together with a finite map from column
      names to columns; every column of a table and every series derived from
      it carries the table's own index, so a series is the list of its values
      in index order.  The display order of the columns is not modelled.
    - The reductions of pandas whose floating point summation order is an
      internal matter of the library (rolling mean and standard deviation,
      exponentially weighted mean, mean of a series) are the fields of the
      class [Kernels], together with their shape laws; [reference_kernels]
      implements them.
    - A method of the builder is a computation in a state and exception
      monad over the builder's fields and the standard output. *)

From Stdlib Require Import ZArith Lia List.
From Stdlib Require Import Floats.SpecFloat.
From Stdlib Require Import Numbers.DecimalString.
From stdpp Require Import base option list strings gmap.

Set Default Proof Using "Type".
Open Scope Z_scope.
Open Scope string_scope.

(** ** Binary64 arithmetic *)

Module Float64.

Definition float : Type := spec_float.

Definition prec : Z := 53.
Definition emax : Z := 1024.

Definition NaN : float := S754_nan.

Definition add : float -> float -> float := SFadd prec emax.
Definition sub : float -> float -> float := SFsub prec emax.
Definition mul : float -> float -> float := SFmul prec emax.
Definition div : float -> float -> float := SFdiv prec emax.
Definition sqrt : float -> float := SFsqrt prec emax.
Definition neg : float -> float := SFopp.
Definition abs : float -> float := SFabs.

(** Conversion of an integer, rounding to nearest even. *)
Definition of_Z (n : Z) : float := binary_normalize prec emax n 0 false.
Definition of_nat (n : nat) : float := of_Z (Z.of_nat n).

(** The comparisons of IEEE 754: every comparison with a NaN is false. *)
Definition gtb (x y : float) : bool :=
  match SFcompare x y with Some Gt => true | _ => false end.
Definition ltb (x y : float) : bool :=
  match SFcompare x y with Some Lt => true | _ => false end.
Definition eqb (x y : float) : bool :=
  match SFcompare x y with Some Eq => true | _ => false end.

Definition isnan (x : float) : bool :=
  match x with S754_nan => true | _ => false end.

(** [max] and [min] of two numbers that are not NaN. *)
Definition fmax (x y : float) : float := if gtb y x then y else x.
Definition fmin (x y : float) : float := if ltb y x then y else x.

#[global] Arguments add : simpl never.
#[global] Arguments sub : simpl never.
#[global] Arguments mul : simpl never.
#[global] Arguments div : simpl never.
#[global] Arguments sqrt : simpl never.
#[global] Arguments of_Z : simpl never.
#[global] Arguments of_nat : simpl never.

Lemma gtb_nan_l y : gtb NaN y = false.
Proof. reflexivity. Qed.

Lemma gtb_nan_r x : gtb x NaN = false.
Proof. by destruct x. Qed.

Lemma gtb_isnan x y : isnan x = true \/ isnan y = true -> gtb x y = false.
Proof.
  intros [Hx | Hy].
  - destruct x; try discriminate. apply gtb_nan_l.
  - destruct y; try discriminate. apply gtb_nan_r.
Qed.

Lemma div_nan_r x : div x NaN = NaN.
Proof. by destruct x. Qed.

Lemma isnan_true x : isnan x = true <-> x = NaN.
Proof. split; [by destruct x | by intros ->]. Qed.

End Float64.

Import Float64.

(** ** The values of a table *)

(** A cell holds a binary64 number (dtype float64) or an integer (dtype
    int64, as produced by [np.where(cond, 1, 0)]). *)
Inductive Scalar : Type :=
  | Float (x : float)
  | Int (n : Z).

(** A series, on the index of its table: the values in index order. *)
Abbreviation Series := (list Scalar).

(** Numeric promotion of a cell to float64. *)
Definition to_float (v : Scalar) : float :=
  match v with
  | Float x => x
  | Int n => of_Z n
  end.

Definition floats (s : Series) : list float := to_float <$> s.
Definition series (xs : list float) : Series := Float <$> xs.

Lemma length_floats s : length (floats s) = length s.
Proof. apply length_fmap. Qed.

Lemma length_series xs : length (series xs) = length xs.
Proof. apply length_fmap. Qed.

Lemma floats_series xs : floats (series xs) = xs.
Proof. unfold floats, series. rewrite <- list_fmap_compose. apply list_fmap_id. Qed.

Lemma series_lookup xs i : series xs !! i = Float <$> (xs !! i).
Proof. apply list_lookup_fmap. Qed.

(** ** pandas and numpy: element-wise and positional operations *)

Module Pandas.

(** A table: the time index and the columns by name.  Every column of a
    well-formed table has one value per index entry ([wf]). *)
Record DataFrame : Type := {
  index : list Z;
  columns : gmap string Series
}.

Definition nrows (d : DataFrame) : nat := length (index d).

Definition wf (d : DataFrame) : Prop :=
  map_Forall (fun _ (c : Series) => length c = nrows d) (columns d).

(** [DataFrame.copy()] (deep): a new table with the same index and data. *)
Definition copy (d : DataFrame) : DataFrame :=
  {| index := index d; columns := columns d |}.

(** [d[name] = c] *)
Definition assign (name : string) (c : Series) (d : DataFrame) : DataFrame :=
  {| index := index d; columns := <[name := c]> (columns d) |}.

(** The cell of column [name] at row [i]. *)
Definition cell (d : DataFrame) (name : string) (i : nat) : option Scalar :=
  columns d !! name ≫= (fun c : Series => c !! i).

(** Binary operators between two series on the same index. *)
Definition ewise {A B C} (f : A -> B -> C) (xs : list A) (ys : list B) : list C :=
  zip_with f xs ys.

(** [Series.shift(n)]: the value of row [i - n] at row [i], NaN on the
    first [n] rows. *)
Definition shift (n : nat) (xs : list float) : list float :=
  take (length xs) (replicate n NaN ++ xs).

(** [Series.diff(n)] *)
Definition diff (n : nat) (xs : list float) : list float :=
  ewise sub xs (shift n xs).

(** [np.where(cond, x, y)] on arrays of one length; a scalar argument is
    broadcast with [full]. *)
Definition np_where {A} (cond : list bool) (xs ys : list A) : list A :=
  zip_with (fun (c : bool) (p : A * A) => if c then p.1 else p.2) cond (zip xs ys).

Definition full {A B} (like : list B) (v : A) : list A :=
  replicate (length like) v.

(** [Series.where(cond, other)]: the value where [cond] holds, [other]
    elsewhere. *)
Definition where_ (xs : list float) (cond : list bool) (other : float) : list float :=
  np_where cond xs (full xs other).

(** The window of [w] rows that ends at row [i], when the table has that
    much history. *)
Definition window (w : nat) (xs : list float) (i : nat) : option (list float) :=
  if decide (w <= i + 1)%nat then Some (take w (drop (i + 1 - w) xs)) else None.

(** [Series.rolling(window=w, min_periods=w).agg(...)]: NaN unless the
    window holds [w] observations that are not NaN. *)
Definition rolling (agg : list float -> float) (w : nat) (xs : list float) : list float :=
  imap (fun i _ =>
          match window w xs i with
          | Some win => if existsb isnan win then NaN else agg win
          | None => NaN
          end) xs.

Definition list_min (xs : list float) : float :=
  match xs with [] => NaN | x :: r => foldl fmin x r end.
Definition list_max (xs : list float) : float :=
  match xs with [] => NaN | x :: r => foldl fmax x r end.

Definition rolling_min : nat -> list float -> list float := rolling list_min.
Definition rolling_max : nat -> list float -> list float := rolling list_max.

(** [Series.cumsum()], which skips NaN: a NaN row stays NaN and does not
    enter the running sum. *)
Fixpoint cumsum_from (acc : float) (xs : list float) : list float :=
  match xs with
  | [] => []
  | x :: r =>
      if isnan x then NaN :: cumsum_from acc r
      else let acc' := add acc x in acc' :: cumsum_from acc' r
  end.
Definition cumsum : list float -> list float := cumsum_from (S754_zero false).

(** [Series.ffill()] *)
Fixpoint ffill_from (last : float) (xs : list float) : list float :=
  match xs with
  | [] => []
  | x :: r => let v := if isnan x then last else x in v :: ffill_from v r
  end.
Definition ffill : list float -> list float := ffill_from NaN.

(** [Series.pct_change()], with its default forward fill of the gaps
    (the default of pandas before version 3). *)
Definition pct_change (xs : list float) : list float :=
  let data := ffill xs in
  (fun q => sub q (of_Z 1)) <$> ewise div data (shift 1 data).

(** [DataFrame.max(axis=1)] over three columns, skipping NaN. *)
Definition max_skipna (x y : float) : float :=
  if isnan x then y else if isnan y then x else fmax x y.
Definition row_max3 (xs ys zs : list float) : list float :=
  ewise max_skipna (ewise max_skipna xs ys) zs.

(** *** Shapes *)

Lemma length_ewise {A B C} (f : A -> B -> C) xs ys :
  length xs = length ys -> length (ewise f xs ys) = length xs.
Proof. intros E. unfold ewise. rewrite length_zip_with. lia. Qed.

Lemma length_shift n xs : length (shift n xs) = length xs.
Proof. unfold shift. rewrite length_take, length_app. lia. Qed.

Lemma length_diff n xs : length (diff n xs) = length xs.
Proof. unfold diff. apply length_ewise. by rewrite length_shift. Qed.

Lemma length_full {A B} (like : list B) (v : A) : length (full like v) = length like.
Proof. apply length_replicate. Qed.

Lemma length_np_where {A} cond (xs ys : list A) :
  length xs = length cond -> length ys = length cond ->
  length (np_where cond xs ys) = length cond.
Proof.
  intros E1 E2. unfold np_where. rewrite length_zip_with, length_zip. lia.
Qed.

Lemma length_where_ xs cond other :
  length cond = length xs -> length (where_ xs cond other) = length xs.
Proof.
  intros E. unfold where_. rewrite length_np_where; rewrite ?length_full; lia.
Qed.

Lemma length_rolling agg w xs : length (rolling agg w xs) = length xs.
Proof. apply length_imap. Qed.

Lemma length_cumsum_from acc xs : length (cumsum_from acc xs) = length xs.
Proof.
  revert acc. induction xs as [|x r IH]; intros acc; simpl; [done|].
  destruct (isnan x); simpl; by rewrite IH.
Qed.

Lemma length_cumsum xs : length (cumsum xs) = length xs.
Proof. apply length_cumsum_from. Qed.

Lemma length_ffill_from last xs : length (ffill_from last xs) = length xs.
Proof. revert last. induction xs as [|x r IH]; intros last; simpl; [done|]. by rewrite IH. Qed.

Lemma length_pct_change xs : length (pct_change xs) = length xs.
Proof.
  unfold pct_change, ffill. rewrite length_fmap, length_ewise.
  - apply length_ffill_from.
  - by rewrite length_shift.
Qed.

Lemma length_row_max3 xs ys zs :
  length ys = length xs -> length zs = length xs ->
  length (row_max3 xs ys zs) = length xs.
Proof.
  intros E1 E2. unfold row_max3. rewrite !length_ewise; try done.
  rewrite length_ewise; done.
Qed.

(** The first [w - 1] rows of a rolling aggregate are NaN. *)
Lemma rolling_short agg w xs i :
  (i + 1 < w)%nat -> (i < length xs)%nat -> rolling agg w xs !! i = Some NaN.
Proof.
  intros Hw Hi. unfold rolling. rewrite list_lookup_imap.
  destruct (lookup_lt_is_Some_2 xs i Hi) as [x ->]. simpl.
  unfold window. destruct (decide (w <= i + 1)%nat); [lia | done].
Qed.

Lemma lookup_ewise {A B C} (f : A -> B -> C) xs ys i x y :
  xs !! i = Some x -> ys !! i = Some y -> ewise f xs ys !! i = Some (f x y).
Proof. intros Hx Hy. unfold ewise. rewrite lookup_zip_with, Hx. simpl. by rewrite Hy. Qed.

Lemma wf_copy d : wf d -> wf (copy d).
Proof. done. Qed.

End Pandas.

(** Rewriting with the shape lemmas, side conditions included. *)
Ltac shape_step tac :=
  first
    [ rewrite length_fmap
    | rewrite length_floats
    | rewrite length_series
    | rewrite Pandas.length_full
    | rewrite Pandas.length_shift
    | rewrite Pandas.length_diff
    | rewrite Pandas.length_rolling
    | rewrite Pandas.length_cumsum
    | rewrite Pandas.length_pct_change
    | rewrite Pandas.length_ewise by tac
    | rewrite Pandas.length_where_ by tac
    | rewrite Pandas.length_np_where by tac
    | rewrite Pandas.length_row_max3 by tac ].

Ltac shapes := repeat shape_step shapes; try congruence.

Import Pandas.

(** ** pandas: floating point reductions

    The reductions whose result depends on the summation order pandas uses
    internally.  The laws are the part of their contract the builder relies
    on: the result is on the index of the argument, and a rolling mean over
    a window of [w] rows is NaN on the first [w - 1] rows
    ([min_periods = window]). *)
Class Kernels : Type := {
  (** [s.rolling(window=w, min_periods=w).mean()] *)
  rolling_mean : nat -> list float -> list float;
  (** [s.rolling(window=w, min_periods=w).std(ddof=ddof)] *)
  rolling_std : nat -> nat -> list float -> list float;
  (** [s.ewm(alpha=alpha, min_periods=m, adjust=False).mean()] *)
  ewm_mean : float -> nat -> list float -> list float;
  (** [s.mean()] *)
  mean : list float -> float;
  length_rolling_mean : forall w xs, length (rolling_mean w xs) = length xs;
  length_rolling_std : forall ddof w xs, length (rolling_std ddof w xs) = length xs;
  length_ewm_mean : forall alpha m xs, length (ewm_mean alpha m xs) = length xs;
  rolling_mean_short : forall w xs i,
    (i + 1 < w)%nat -> (i < length xs)%nat -> rolling_mean w xs !! i = Some NaN
}.

(** ** Exceptions *)

Inductive exn : Type :=
  | KeyError (key : string)
  | IndexError.

Inductive outcome (A : Type) : Type :=
  | Ok (a : A)
  | Raise (e : exn).
Arguments Ok {A} a.
Arguments Raise {A} e.

(** ** The indicators of the [ta] library (with its default [fillna=False]) *)

Module TA.
Section Indicators.
Context `{K : Kernels}.

(** [ta.utils._sma] *)
Definition _sma (xs : list float) (periods : nat) : list float :=
  rolling_mean periods xs.

(** [ta.utils._ema]: [ewm(span=periods, min_periods=periods, adjust=False)],
    where a span [n] is the smoothing factor [2 / (n + 1)]. *)
Definition _ema (xs : list float) (periods : nat) : list float :=
  ewm_mean (div (of_Z 2) (add (of_nat periods) (of_Z 1))) periods xs.

(** [SMAIndicator(close, window).sma_indicator()] *)
Definition sma_indicator (close : list float) (window : nat) : list float :=
  _sma close window.

(** [EMAIndicator(close, window).ema_indicator()] *)
Definition ema_indicator (close : list float) (window : nat) : list float :=
  _ema close window.

(** [RSIIndicator(close, window).rsi()] *)
Definition rsi (close : list float) (window : nat) : list float :=
  let d := diff 1 close in
  let zero := of_Z 0 in
  let up_direction := where_ d ((fun x => gtb x zero) <$> d) zero in
  let down_direction := neg <$> where_ d ((fun x => ltb x zero) <$> d) zero in
  let alpha := div (of_Z 1) (of_nat window) in
  let emaup := ewm_mean alpha window up_direction in
  let emadn := ewm_mean alpha window down_direction in
  let relative_strength := ewise div emaup emadn in
  np_where ((fun x => eqb x zero) <$> emadn)
    (full emadn (of_Z 100))
    ((fun r => sub (of_Z 100) (div (of_Z 100) (add (of_Z 1) r))) <$> relative_strength).

(** [StochasticOscillator(high, low, close, window, smooth_window)] *)
Record StochasticOscillator : Type := {
  _stoch_k : list float;
  _smooth_window : nat
}.

Definition StochasticOscillator_init (high low close : list float)
    (window smooth_window : nat) : StochasticOscillator :=
  let smin := rolling_min window low in
  let smax := rolling_max window high in
  {| _stoch_k :=
       ewise div ((fun x => mul (of_Z 100) x) <$> ewise sub close smin)
                 (ewise sub smax smin);
     _smooth_window := smooth_window |}.

Definition stoch (o : StochasticOscillator) : list float := _stoch_k o.
Definition stoch_signal (o : StochasticOscillator) : list float :=
  rolling_mean (_smooth_window o) (_stoch_k o).

(** [MACD(close, window_slow, window_fast, window_sign)] *)
Record MACD : Type := {
  _macd : list float;
  _macd_signal : list float;
  _macd_diff : list float
}.

Definition MACD_init (close : list float)
    (window_slow window_fast window_sign : nat) : MACD :=
  let emafast := _ema close window_fast in
  let emaslow := _ema close window_slow in
  let macd := ewise sub emafast emaslow in
  let macd_signal := _ema macd window_sign in
  {| _macd := macd;
     _macd_signal := macd_signal;
     _macd_diff := ewise sub macd macd_signal |}.

Definition macd (o : MACD) : list float := _macd o.
Definition macd_signal (o : MACD) : list float := _macd_signal o.
Definition macd_diff (o : MACD) : list float := _macd_diff o.

(** [IndicatorMixin._true_range] *)
Definition _true_range (high low prev_close : list float) : list float :=
  row_max3 (ewise sub high low)
           (abs <$> ewise sub high prev_close)
           (abs <$> ewise sub low prev_close).

(** The loop of [AverageTrueRange._run] over the rows after the first
    window. *)
Fixpoint atr_loop (window : nat) (prev : float) (true_range : list float) : list float :=
  match true_range with
  | [] => []
  | t :: r =>
      let a := div (add (mul prev (of_nat (window - 1))) t) (of_nat window) in
      a :: atr_loop window a r
  end.

(** [AverageTrueRange(high, low, close, window).average_true_range()]:
    zero before row [window - 1], the mean of the first [window] true
    ranges at that row, smoothed afterwards; writing row [window - 1] of a
    shorter table is an [IndexError]. *)
Definition _atr (high low close : list float) (window : nat) : list float :=
  let true_range := _true_range high low (shift 1 close) in
  let first := mean (take window true_range) in
  (replicate (window - 1) (of_Z 0)
     ++ first :: atr_loop window first (drop window true_range))%list.

Definition average_true_range (high low close : list float)
    (window : nat) : outcome (list float) :=
  if decide (1 <= window <= length close)%nat
  then Ok (_atr high low close window)
  else Raise IndexError.

(** [BollingerBands(close, window, window_dev)] *)
Record BollingerBands : Type := {
  _close : list float;
  _mavg : list float;
  _hband : list float;
  _lband : list float
}.

Definition BollingerBands_init (close : list float)
    (window : nat) (window_dev : Z) : BollingerBands :=
  let mavg := rolling_mean window close in
  let mstd := rolling_std 0 window close in
  {| _close := close;
     _mavg := mavg;
     _hband := ewise add mavg ((fun s => mul (of_Z window_dev) s) <$> mstd);
     _lband := ewise sub mavg ((fun s => mul (of_Z window_dev) s) <$> mstd) |}.

Definition bollinger_hband (o : BollingerBands) : list float := _hband o.
Definition bollinger_mavg (o : BollingerBands) : list float := _mavg o.
Definition bollinger_lband (o : BollingerBands) : list float := _lband o.
Definition bollinger_wband (o : BollingerBands) : list float :=
  (fun x => mul x (of_Z 100)) <$> ewise div (ewise sub (_hband o) (_lband o)) (_mavg o).
Definition bollinger_pband (o : BollingerBands) : list float :=
  ewise div (ewise sub (_close o) (_lband o)) (ewise sub (_hband o) (_lband o)).

(** [OnBalanceVolumeIndicator(close, volume).on_balance_volume()], on float64
    columns. *)
Definition on_balance_volume (close volume : list float) : list float :=
  cumsum (np_where (ewise ltb close (shift 1 close)) (neg <$> volume) volume).

(** *** Shapes: every indicator is on the index of its arguments *)

Ltac kshapes :=
  repeat first
    [ rewrite length_rolling_mean
    | rewrite length_rolling_std
    | rewrite length_ewm_mean
    | progress unfold _ema, _sma
    | shape_step kshapes ];
  try congruence.

Lemma length_sma_indicator close w : length (sma_indicator close w) = length close.
Proof. apply length_rolling_mean. Qed.

Lemma length_ema close w : length (_ema close w) = length close.
Proof. apply length_ewm_mean. Qed.

Lemma length_ema_indicator close w : length (ema_indicator close w) = length close.
Proof. apply length_ema. Qed.

Lemma length_rsi close w : length (rsi close w) = length close.
Proof. unfold rsi. kshapes. Qed.

Lemma length_stoch high low close w sw :
  length high = length close -> length low = length close ->
  length (stoch (StochasticOscillator_init high low close w sw)) = length close.
Proof.
  intros Eh El. unfold stoch, StochasticOscillator_init, rolling_min, rolling_max.
  simpl. kshapes.
Qed.

Lemma length_stoch_signal high low close w sw :
  length high = length close -> length low = length close ->
  length (stoch_signal (StochasticOscillator_init high low close w sw)) = length close.
Proof.
  intros Eh El. unfold stoch_signal. rewrite length_rolling_mean.
  by apply (length_stoch high low close w sw).
Qed.

Lemma length_macd close ws wf wsg :
  length (macd (MACD_init close ws wf wsg)) = length close.
Proof. unfold macd. simpl. kshapes. Qed.

Lemma length_macd_signal close ws wf wsg :
  length (macd_signal (MACD_init close ws wf wsg)) = length close.
Proof. unfold macd_signal. simpl. kshapes. Qed.

Lemma length_macd_diff close ws wf wsg :
  length (macd_diff (MACD_init close ws wf wsg)) = length close.
Proof. unfold macd_diff. simpl. kshapes. Qed.

Lemma length_true_range high low prev :
  length high = length prev -> length low = length prev ->
  length (_true_range high low prev) = length prev.
Proof. intros Eh El. unfold _true_range. kshapes. Qed.

Lemma length_atr_loop w prev tr : length (atr_loop w prev tr) = length tr.
Proof. revert prev. induction tr as [|t r IH]; intros prev; simpl; [done|]. by rewrite IH. Qed.

Lemma length_average_true_range high low close w atr :
  length high = length close -> length low = length close ->
  average_true_range high low close w = Ok atr -> length atr = length close.
Proof.
  intros Eh El. unfold average_true_range, _atr.
  destruct (decide _) as [[H1 H2]|]; [|done]. intros [= <-].
  rewrite length_app, length_replicate. simpl.
  rewrite length_atr_loop, length_drop, length_true_range;
    rewrite ?length_shift; try done. lia.
Qed.

Lemma length_bollinger_hband close w dev :
  length (bollinger_hband (BollingerBands_init close w dev)) = length close.
Proof. unfold bollinger_hband. simpl. kshapes. Qed.

Lemma length_bollinger_mavg close w dev :
  length (bollinger_mavg (BollingerBands_init close w dev)) = length close.
Proof. unfold bollinger_mavg. simpl. kshapes. Qed.

Lemma length_bollinger_lband close w dev :
  length (bollinger_lband (BollingerBands_init close w dev)) = length close.
Proof. unfold bollinger_lband. simpl. kshapes. Qed.

Lemma length_bollinger_wband close w dev :
  length (bollinger_wband (BollingerBands_init close w dev)) = length close.
Proof. unfold bollinger_wband. simpl. kshapes. Qed.

Lemma length_bollinger_pband close w dev :
  length (bollinger_pband (BollingerBands_init close w dev)) = length close.
Proof. unfold bollinger_pband. simpl. kshapes. Qed.

Lemma length_on_balance_volume close volume :
  length volume = length close ->
  length (on_balance_volume close volume) = length close.
Proof. intros E. unfold on_balance_volume. kshapes. Qed.

End Indicators.
End TA.

(** ** The builder: [GoldFeatureEngineering] *)

(** The fields of the builder, [self.df] and [self.features_created],
    together with what the methods have printed so far. *)
Record State : Type := {
  df : DataFrame;
  features_created : list string;
  stdout : list string
}.

(** A method body: it runs from a state to an outcome and the state it
    leaves, also when it raises. *)
Definition M (A : Type) : Type := State -> outcome A * State.

Definition ret {A} (a : A) : M A := fun s => (Ok a, s).

Definition bind {A B} (m : M A) (k : A -> M B) : M B :=
  fun s =>
    match m s with
    | (Ok a, s') => k a s'
    | (Raise e, s') => (Raise e, s')
    end.

Notation "x <~ m ;; k" := (bind m (fun x => k))
  (at level 100, m at next level, k at level 200, only parsing).
Notation "m ;; k" := (bind m (fun _ => k))
  (at level 100, k at level 200, only parsing).

(** The outcome of a library call that may raise. *)
Definition lift {A} (o : outcome A) : M A := fun s => (o, s).

(** [self.df[name]] *)
Definition getitem (name : string) : M Series :=
  fun s =>
    match columns (df s) !! name with
    | Some c => (Ok c, s)
    | None => (Raise (KeyError name), s)
    end.

(** [self.df[name] = c] *)
Definition setitem (name : string) (c : Series) : M unit :=
  fun s =>
    (Ok tt, {| df := assign name c (df s);
               features_created := features_created s;
               stdout := stdout s |}).

(** [name in self.df.columns] *)
Definition has_column (name : string) : M bool :=
  fun s => (Ok (bool_decide (is_Some (columns (df s) !! name))), s).

(** [self.features_created.extend(names)]; [append] is the case of one
    name. *)
Definition features_extend (names : list string) : M unit :=
  fun s =>
    (Ok tt, {| df := df s;
               features_created := (features_created s ++ names)%list;
               stdout := stdout s |}).

Definition features_append (name : string) : M unit := features_extend [name].

Definition print (line : string) : M unit :=
  fun s =>
    (Ok tt, {| df := df s;
               features_created := features_created s;
               stdout := (stdout s ++ [line])%list |}).

(** [for x in xs: body] *)
Fixpoint for_each {A} (xs : list A) (body : A -> M unit) : M unit :=
  match xs with
  | [] => ret tt
  | x :: r => body x ;; for_each r body
  end.

(** [str(n)], as an f-string formats an integer. *)
Definition str (n : nat) : string := NilZero.string_of_uint (Nat.to_uint n).

Section Methods.
Context `{K : Kernels}.

(** [GoldFeatureEngineering(df)]: the builder works on a copy. *)
Definition __init__ (d : DataFrame) (out : list string) : State :=
  {| df := copy d; features_created := []; stdout := out |}.

Definition add_moving_averages : M unit :=
  print "Agregando medias móviles..." ;;
  let periods := [5; 10; 20; 50; 100; 200]%nat in
  for_each periods (fun period =>
    close <~ getitem "Close" ;;
    setitem ("SMA_" +:+ str period)
      (series (TA.sma_indicator (floats close) period)) ;;
    features_append ("SMA_" +:+ str period)) ;;
  for_each [9; 12; 21; 26; 50]%nat (fun period =>
    close <~ getitem "Close" ;;
    setitem ("EMA_" +:+ str period)
      (series (TA.ema_indicator (floats close) period)) ;;
    features_append ("EMA_" +:+ str period)) ;;
  sma_20 <~ getitem "SMA_20" ;;
  sma_50 <~ getitem "SMA_50" ;;
  (let cond := ewise gtb (floats sma_20) (floats sma_50) in
   setitem "SMA_Cross_20_50" (np_where cond (full cond (Int 1)) (full cond (Int 0)))) ;;
  ema_12 <~ getitem "EMA_12" ;;
  ema_26 <~ getitem "EMA_26" ;;
  (let cond := ewise gtb (floats ema_12) (floats ema_26) in
   setitem "EMA_Cross_12_26" (np_where cond (full cond (Int 1)) (full cond (Int 0)))) ;;
  print (" " +:+ str (length periods * 2 + 2)
           +:+ " indicadores de medias móviles agregados.").

Definition add_momentum_indicators : M unit :=
  print "Agregando indicadores de momentum..." ;;
  for_each [14; 21]%nat (fun period =>
    close <~ getitem "Close" ;;
    setitem ("RSI_" +:+ str period) (series (TA.rsi (floats close) period)) ;;
    features_append ("RSI_" +:+ str period)) ;;
  high <~ getitem "High" ;;
  low <~ getitem "Low" ;;
  close <~ getitem "Close" ;;
  (let stoch :=
     TA.StochasticOscillator_init (floats high) (floats low) (floats close) 14 3 in
   setitem "Stoch_K" (series (TA.stoch stoch)) ;;
   setitem "Stoch_D" (series (TA.stoch_signal stoch))) ;;
  features_extend ["Stoch_K"; "Stoch_D"] ;;
  close <~ getitem "Close" ;;
  (let macd := TA.MACD_init (floats close) 26 12 9 in
   setitem "MACD" (series (TA.macd macd)) ;;
   setitem "MACD_Signal" (series (TA.macd_signal macd)) ;;
   setitem "MACD_Diff" (series (TA.macd_diff macd))) ;;
  features_extend ["MACD"; "MACD_Signal"; "MACD_Diff"] ;;
  for_each [10; 20]%nat (fun period =>
    close <~ getitem "Close" ;;
    close' <~ getitem "Close" ;;
    close'' <~ getitem "Close" ;;
    setitem ("ROC_" +:+ str period)
      (series ((fun q => mul q (of_Z 100))
                 <$> ewise div (ewise sub (floats close) (shift period (floats close')))
                               (shift period (floats close'')))) ;;
    features_append ("ROC_" +:+ str period)) ;;
  print "9 indicadores de momentum agregados.".

Definition add_volatility_indicators : M unit :=
  print "Agregando indicadores de volatilidad..." ;;
  for_each [14; 20]%nat (fun period =>
    high <~ getitem "High" ;;
    low <~ getitem "Low" ;;
    close <~ getitem "Close" ;;
    atr <~ lift (TA.average_true_range (floats high) (floats low) (floats close) period) ;;
    setitem ("ATR_" +:+ str period) (series atr) ;;
    features_append ("ATR_" +:+ str period)) ;;
  close <~ getitem "Close" ;;
  (let bb := TA.BollingerBands_init (floats close) 20 2 in
   setitem "BB_High" (series (TA.bollinger_hband bb)) ;;
   setitem "BB_Mid" (series (TA.bollinger_mavg bb)) ;;
   setitem "BB_Low" (series (TA.bollinger_lband bb)) ;;
   setitem "BB_Width" (series (TA.bollinger_wband bb)) ;;
   setitem "BB_Pct" (series (TA.bollinger_pband bb))) ;;
  features_extend ["BB_High"; "BB_Mid"; "BB_Low"; "BB_Width"; "BB_Pct"] ;;
  for_each [10; 20; 30]%nat (fun period =>
    close <~ getitem "Close" ;;
    (let returns := pct_change (floats close) in
     setitem ("Volatility_" +:+ str period)
       (series ((fun sd => mul sd (sqrt (of_nat period)))
                  <$> rolling_std 1 period returns))) ;;
    features_append ("Volatility_" +:+ str period)) ;;
  print " 10 indicadores de volatilidad agregados.".

Definition add_volume_indicators : M unit :=
  has_volume <~ has_column "Volume" ;;
  if negb has_volume then
    print "No hay datos de volumen, saltando indicadores de volumen."
  else
    print "Agregando indicadores de volumen..." ;;
    close <~ getitem "Close" ;;
    volume <~ getitem "Volume" ;;
    setitem "OBV" (series (TA.on_balance_volume (floats close) (floats volume))) ;;
    features_append "OBV" ;;
    for_each [10; 20]%nat (fun period =>
      volume <~ getitem "Volume" ;;
      setitem ("Volume_SMA_" +:+ str period)
        (series (rolling_mean period (floats volume))) ;;
      features_append ("Volume_SMA_" +:+ str period)) ;;
    volume <~ getitem "Volume" ;;
    volume_sma_20 <~ getitem "Volume_SMA_20" ;;
    setitem "Volume_Ratio"
      (series (ewise div (floats volume) (floats volume_sma_20))) ;;
    features_append "Volume_Ratio" ;;
    print " 4 indicadores de volumen agregados.".

(** The four enrichment passes and a sequence of calls, which stops at
    the first exception. *)
Inductive Pass : Type :=
  | MovingAverages
  | Momentum
  | Volatility
  | Volume.

Definition call (p : Pass) : M unit :=
  match p with
  | MovingAverages => add_moving_averages
  | Momentum => add_momentum_indicators
  | Volatility => add_volatility_indicators
  | Volume => add_volume_indicators
  end.

Definition run (ps : list Pass) : M unit := for_each ps call.

End Methods.

#[export] Instance Pass_eq_dec : EqDecision Pass.
Proof. solve_decision. Defined.

(** ** Reference kernels

    A direct implementation of the reductions: sums from left to right over
    the observations of the window. *)

Module Reference.

Definition fsum (xs : list float) : float := foldl add (of_Z 0) xs.

Definition observations (xs : list float) : list float :=
  List.filter (fun x => negb (isnan x)) xs.

Definition mean (xs : list float) : float :=
  let obs := observations xs in div (fsum obs) (of_nat (length obs)).

Definition rolling_mean : nat -> list float -> list float := rolling mean.

Definition std (ddof : nat) (xs : list float) : float :=
  let m := mean xs in
  let sq := (fun x => mul (sub x m) (sub x m)) <$> xs in
  sqrt (div (fsum sq) (of_nat (length xs - ddof))).

Definition rolling_std (ddof : nat) : nat -> list float -> list float :=
  rolling (std ddof).

(** [y_t = (1 - alpha) y_(t-1) + alpha x_t], carried over the gaps, and
    shown once [min_periods] observations were seen. *)
Fixpoint ewm_from (alpha : float) (min_periods nobs : nat) (prev : float)
    (xs : list float) : list float :=
  match xs with
  | [] => []
  | x :: r =>
      let nobs' := if isnan x then nobs else S nobs in
      let y :=
        if isnan prev then x
        else if isnan x then prev
        else add (mul (sub (of_Z 1) alpha) prev) (mul alpha x) in
      (if decide (min_periods <= nobs')%nat then y else NaN)
        :: ewm_from alpha min_periods nobs' y r
  end.

Definition ewm_mean (alpha : float) (min_periods : nat) (xs : list float) : list float :=
  ewm_from alpha min_periods 0 NaN xs.

Lemma length_ewm_from alpha m nobs prev xs :
  length (ewm_from alpha m nobs prev xs) = length xs.
Proof.
  revert nobs prev. induction xs as [|x r IH]; intros nobs prev; simpl; [done|].
  by rewrite IH.
Qed.

End Reference.

#[export] Instance reference_kernels : Kernels := {|
  rolling_mean := Reference.rolling_mean;
  rolling_std := Reference.rolling_std;
  ewm_mean := Reference.ewm_mean;
  mean := Reference.mean;
  length_rolling_mean := length_rolling Reference.mean;
  length_rolling_std := fun ddof => length_rolling (Reference.std ddof);
  length_ewm_mean := fun alpha m => Reference.length_ewm_from alpha m 0 NaN;
  rolling_mean_short := rolling_short Reference.mean
|}.

(** ** A logic of invariants for method bodies

    [hoare I m Q]: from a state in [I], the body [m] leaves a state in [I],
    whether it returns or raises, and the value it returns satisfies [Q]. *)

Definition hoare {A} (I : State -> Prop) (m : M A) (Q : A -> Prop) : Prop :=
  forall s, I s -> I (m s).2 /\ forall a, (m s).1 = Ok a -> Q a.

Section Hoare.
Context (I : State -> Prop).

Lemma hoare_ret {A} (a : A) (Q : A -> Prop) : Q a -> hoare I (ret a) Q.
Proof. intros HQ s Hs. split; [done|]. by intros a' [= <-]. Qed.

Lemma hoare_bind {A B} (m : M A) (k : A -> M B) (Q : A -> Prop) (R : B -> Prop) :
  hoare I m Q -> (forall a, Q a -> hoare I (k a) R) -> hoare I (bind m k) R.
Proof.
  intros Hm Hk s Hs. unfold bind. destruct (Hm s Hs) as [Hi Hq].
  destruct (m s) as [[a|e] s']; simpl in *.
  - apply Hk; [by apply Hq | done].
  - split; [done | discriminate].
Qed.

Lemma hoare_lift {A} (o : outcome A) (Q : A -> Prop) :
  (forall a, o = Ok a -> Q a) -> hoare I (lift o) Q.
Proof. intros HQ s Hs. split; [done|]. simpl. apply HQ. Qed.

Lemma hoare_for_each {A} (xs : list A) (body : A -> M unit) :
  (forall x, hoare I (body x) (fun _ => True)) ->
  hoare I (for_each xs body) (fun _ => True).
Proof.
  intros Hb. induction xs as [|x r IH]; simpl.
  - by apply hoare_ret.
  - eapply hoare_bind; [apply Hb | done].
Qed.

Lemma hoare_if {A} (b : bool) (m1 m2 : M A) (Q : A -> Prop) :
  hoare I m1 Q -> hoare I m2 Q -> hoare I (if b then m1 else m2) Q.
Proof. by destruct b. Qed.

End Hoare.

(** The invariant of the passes: the index is [idx] and every column has
    [n] values. *)
Definition shaped (idx : list Z) (n : nat) (s : State) : Prop :=
  index (df s) = idx /\
  map_Forall (fun _ (c : Series) => length c = n) (columns (df s)).

Section Shaped.
Context (idx : list Z) (n : nat).

Lemma shaped_getitem name :
  hoare (shaped idx n) (getitem name) (fun c => length c = n).
Proof.
  intros s Hs. unfold getitem.
  destruct (columns (df s) !! name) as [c|] eqn:E; simpl.
  - split; [done|]. intros a [= <-]. destruct Hs as [_ Hc]. by apply (Hc name).
  - split; [done | discriminate].
Qed.

Lemma shaped_setitem name c :
  length c = n -> hoare (shaped idx n) (setitem name c) (fun _ => True).
Proof.
  intros L s [Hi Hc]. split; [|done]. split; simpl; [done|].
  by apply map_Forall_insert_2.
Qed.

Lemma shaped_has_column name :
  hoare (shaped idx n) (has_column name) (fun _ => True).
Proof. intros s Hs. done. Qed.

Lemma shaped_features_extend names :
  hoare (shaped idx n) (features_extend names) (fun _ => True).
Proof. intros s Hs. done. Qed.

Lemma shaped_features_append name :
  hoare (shaped idx n) (features_append name) (fun _ => True).
Proof. apply shaped_features_extend. Qed.

Lemma shaped_print line : hoare (shaped idx n) (print line) (fun _ => True).
Proof. intros s Hs. done. Qed.

End Shaped.

(** ** Every pass keeps the shape of the table *)

Section PassShapes.
Context `{K : Kernels} (idx : list Z) (n : nat).

Ltac ta_shapes :=
  repeat first
    [ rewrite TA.length_sma_indicator
    | rewrite TA.length_ema_indicator
    | rewrite TA.length_rsi
    | rewrite TA.length_macd
    | rewrite TA.length_macd_signal
    | rewrite TA.length_macd_diff
    | rewrite TA.length_bollinger_hband
    | rewrite TA.length_bollinger_mavg
    | rewrite TA.length_bollinger_lband
    | rewrite TA.length_bollinger_wband
    | rewrite TA.length_bollinger_pband
    | rewrite length_rolling_mean
    | rewrite length_rolling_std
    | rewrite TA.length_stoch by ta_shapes
    | rewrite TA.length_stoch_signal by ta_shapes
    | rewrite TA.length_on_balance_volume by ta_shapes
    | shape_step ta_shapes ];
  try congruence.

Ltac hprim :=
  lazymatch goal with
  | |- hoare _ (getitem _) _ => apply shaped_getitem
  | |- hoare _ (setitem _ _) _ => apply shaped_setitem; ta_shapes
  | |- hoare _ (has_column _) _ => apply shaped_has_column
  | |- hoare _ (features_extend _) _ => apply shaped_features_extend
  | |- hoare _ (features_append _) _ => apply shaped_features_append
  | |- hoare _ (print _) _ => apply shaped_print
  | |- hoare _ (ret _) _ => by apply hoare_ret
  end.

Ltac hstep :=
  lazymatch goal with
  | |- hoare _ (bind (for_each _ _) _) _ =>
      eapply hoare_bind; [apply hoare_for_each; intros ?; simpl | intros _ _]
  | |- hoare _ (bind (bind _ _) _) _ =>
      eapply hoare_bind; [ | intros ? ?]
  | |- hoare _ (bind _ _) _ =>
      eapply hoare_bind; [hprim | let a := fresh "c" in
                                  let H := fresh "L" in intros a H; simpl in H]
  | |- hoare _ (for_each _ _) _ => apply hoare_for_each; intros ?; simpl
  | |- hoare _ (if _ then _ else _) _ => apply hoare_if
  | |- _ => hprim
  end.

Lemma shaped_add_moving_averages :
  hoare (shaped idx n) add_moving_averages (fun _ => True).
Proof. unfold add_moving_averages. repeat hstep. Qed.

Lemma shaped_add_momentum_indicators :
  hoare (shaped idx n) add_momentum_indicators (fun _ => True).
Proof. unfold add_momentum_indicators. repeat hstep. Qed.

Lemma shaped_average_true_range high low close w :
  length high = n -> length low = n -> length close = n ->
  hoare (shaped idx n)
    (lift (TA.average_true_range (floats high) (floats low) (floats close) w))
    (fun atr => length atr = n).
Proof.
  intros Lh Ll Lc. apply hoare_lift. intros atr E.
  apply TA.length_average_true_range in E; [rewrite E|..]; ta_shapes.
Qed.

Lemma shaped_add_volatility_indicators :
  hoare (shaped idx n) add_volatility_indicators (fun _ => True).
Proof.
  unfold add_volatility_indicators. do 2 hstep.
  { do 3 hstep.
    eapply hoare_bind; [by apply shaped_average_true_range | intros atr Latr].
    repeat hstep. }
  repeat hstep.
Qed.

Lemma shaped_add_volume_indicators :
  hoare (shaped idx n) add_volume_indicators (fun _ => True).
Proof. unfold add_volume_indicators. repeat hstep. Qed.

Lemma shaped_call p : hoare (shaped idx n) (call p) (fun _ => True).
Proof.
  destruct p; simpl.
  - apply shaped_add_moving_averages.
  - apply shaped_add_momentum_indicators.
  - apply shaped_add_volatility_indicators.
  - apply shaped_add_volume_indicators.
Qed.

Lemma shaped_run ps : hoare (shaped idx n) (run ps) (fun _ => True).
Proof. apply hoare_for_each, shaped_call. Qed.

End PassShapes.

(** ** What a pass computes

    A pass reads the price and volume columns of the table and the columns
    it has itself assigned before; [effect] gives the columns a pass assigns
    when it returns, in the order of the assignments, as a function of the
    price and volume columns alone. *)

Record Prices : Type := {
  p_close : option Series;
  p_high : option Series;
  p_low : option Series;
  p_volume : option Series
}.

Definition prices (d : DataFrame) : Prices :=
  {| p_close := columns d !! "Close";
     p_high := columns d !! "High";
     p_low := columns d !! "Low";
     p_volume := columns d !! "Volume" |}.

Definition assign_all (cols : list (string * Series)) (d : DataFrame) : DataFrame :=
  foldl (fun d' (nc : string * Series) => assign nc.1 nc.2 d') d cols.

(** The binary signal [np.where(a > b, 1, 0)]. *)
Definition cross (a b : list float) : Series :=
  let cond := ewise gtb a b in
  np_where cond (full cond (Int 1)) (full cond (Int 0)).

Section Effects.
Context `{K : Kernels}.

Definition moving_average_columns (close : list float) : list (string * Series) :=
  let sma w := TA.sma_indicator close w in
  let ema w := TA.ema_indicator close w in
  [ ("SMA_5", series (sma 5%nat)); ("SMA_10", series (sma 10%nat));
    ("SMA_20", series (sma 20%nat)); ("SMA_50", series (sma 50%nat));
    ("SMA_100", series (sma 100%nat)); ("SMA_200", series (sma 200%nat));
    ("EMA_9", series (ema 9%nat)); ("EMA_12", series (ema 12%nat));
    ("EMA_21", series (ema 21%nat)); ("EMA_26", series (ema 26%nat));
    ("EMA_50", series (ema 50%nat));
    ("SMA_Cross_20_50", cross (sma 20%nat) (sma 50%nat));
    ("EMA_Cross_12_26", cross (ema 12%nat) (ema 26%nat)) ].

Definition rate_of_change (close : list float) (period : nat) : list float :=
  (fun q => mul q (of_Z 100))
    <$> ewise div (ewise sub close (shift period close)) (shift period close).

Definition momentum_columns (high low close : list float) : list (string * Series) :=
  let stoch := TA.StochasticOscillator_init high low close 14 3 in
  let macd := TA.MACD_init close 26 12 9 in
  [ ("RSI_14", series (TA.rsi close 14)); ("RSI_21", series (TA.rsi close 21));
    ("Stoch_K", series (TA.stoch stoch)); ("Stoch_D", series (TA.stoch_signal stoch));
    ("MACD", series (TA.macd macd)); ("MACD_Signal", series (TA.macd_signal macd));
    ("MACD_Diff", series (TA.macd_diff macd));
    ("ROC_10", series (rate_of_change close 10));
    ("ROC_20", series (rate_of_change close 20)) ].

Definition volatility (close : list float) (period : nat) : list float :=
  (fun sd => mul sd (sqrt (of_nat period))) <$> rolling_std 1 period (pct_change close).

Definition volatility_columns (high low close : list float) : list (string * Series) :=
  let bb := TA.BollingerBands_init close 20 2 in
  [ ("ATR_14", series (TA._atr high low close 14));
    ("ATR_20", series (TA._atr high low close 20));
    ("BB_High", series (TA.bollinger_hband bb)); ("BB_Mid", series (TA.bollinger_mavg bb));
    ("BB_Low", series (TA.bollinger_lband bb)); ("BB_Width", series (TA.bollinger_wband bb));
    ("BB_Pct", series (TA.bollinger_pband bb));
    ("Volatility_10", series (volatility close 10));
    ("Volatility_20", series (volatility close 20));
    ("Volatility_30", series (volatility close 30)) ].

Definition volume_columns (close volume : list float) : list (string * Series) :=
  [ ("OBV", series (TA.on_balance_volume close volume));
    ("Volume_SMA_10", series (rolling_mean 10 volume));
    ("Volume_SMA_20", series (rolling_mean 20 volume));
    ("Volume_Ratio", series (ewise div volume (rolling_mean 20 volume))) ].

Definition effect (p : Pass) (pr : Prices) : option (list (string * Series)) :=
  match p with
  | MovingAverages =>
      close ← p_close pr; Some (moving_average_columns (floats close))
  | Momentum =>
      close ← p_close pr; high ← p_high pr; low ← p_low pr;
      Some (momentum_columns (floats high) (floats low) (floats close))
  | Volatility =>
      high ← p_high pr; low ← p_low pr; close ← p_close pr;
      if decide (20 <= length close)%nat
      then Some (volatility_columns (floats high) (floats low) (floats close))
      else None
  | Volume =>
      match p_volume pr with
      | None => Some []
      | Some volume =>
          close ← p_close pr; Some (volume_columns (floats close) (floats volume))
      end
  end.

(** The names a pass appends to the registry when it returns. *)
Definition registered (p : Pass) (pr : Prices) : list string :=
  match p with
  | MovingAverages =>
      ["SMA_5"; "SMA_10"; "SMA_20"; "SMA_50"; "SMA_100"; "SMA_200";
       "EMA_9"; "EMA_12"; "EMA_21"; "EMA_26"; "EMA_50"]
  | Momentum =>
      ["RSI_14"; "RSI_21"; "Stoch_K"; "Stoch_D"; "MACD"; "MACD_Signal";
       "MACD_Diff"; "ROC_10"; "ROC_20"]
  | Volatility =>
      ["ATR_14"; "ATR_20"; "BB_High"; "BB_Mid"; "BB_Low"; "BB_Width"; "BB_Pct";
       "Volatility_10"; "Volatility_20"; "Volatility_30"]
  | Volume =>
      match p_volume pr with
      | None => []
      | Some _ => ["OBV"; "Volume_SMA_10"; "Volume_SMA_20"; "Volume_Ratio"]
      end
  end.

(** The lines a pass prints when it returns. *)
Definition printed (p : Pass) (pr : Prices) : list string :=
  match p with
  | MovingAverages =>
      ["Agregando medias móviles...";
       " 14 indicadores de medias móviles agregados."]
  | Momentum =>
      ["Agregando indicadores de momentum...";
       "9 indicadores de momentum agregados."]
  | Volatility =>
      ["Agregando indicadores de volatilidad...";
       " 10 indicadores de volatilidad agregados."]
  | Volume =>
      match p_volume pr with
      | None => ["No hay datos de volumen, saltando indicadores de volumen."]
      | Some _ =>
          ["Agregando indicadores de volumen...";
           " 4 indicadores de volumen agregados."]
      end
  end.

Definition after (p : Pass) (s : State) (cols : list (string * Series)) : State :=
  {| df := assign_all cols (df s);
     features_created := (features_created s ++ registered p (prices (df s)))%list;
     stdout := (stdout s ++ printed p (prices (df s)))%list |}.

End Effects.

(** ** Running a method body on a state, statement by statement *)

Lemma bind_assoc {A B C} (m : M A) (k : A -> M B) (k' : B -> M C) s :
  bind (bind m k) k' s = bind m (fun a => bind (k a) k') s.
Proof. unfold bind. by destruct (m s) as [[a|e] s']. Qed.

Lemma bind_ok {A B} (m : M A) (k : A -> M B) s a s' :
  m s = (Ok a, s') -> bind m k s = k a s'.
Proof. unfold bind. by intros ->. Qed.

Lemma bind_raise {A B} (m : M A) (k : A -> M B) s e s' :
  m s = (Raise e, s') -> bind m k s = (Raise e, s').
Proof. unfold bind. by intros ->. Qed.

Lemma getitem_ok name s c :
  columns (df s) !! name = Some c -> getitem name s = (Ok c, s).
Proof. unfold getitem. by intros ->. Qed.

Lemma getitem_raise name s :
  columns (df s) !! name = None -> getitem name s = (Raise (KeyError name), s).
Proof. unfold getitem. by intros ->. Qed.

Lemma lift_atr_ok `{K : Kernels} high low close w s :
  (1 <= w <= length close)%nat ->
  lift (TA.average_true_range high low close w) s = (Ok (TA._atr high low close w), s).
Proof. intros H. unfold lift, TA.average_true_range. by rewrite decide_True. Qed.

Lemma lift_atr_raise `{K : Kernels} high low close w s :
  ~ (1 <= w <= length close)%nat ->
  lift (TA.average_true_range high low close w) s = (Raise IndexError, s).
Proof. intros H. unfold lift, TA.average_true_range. by rewrite decide_False. Qed.

Lemma has_column_ok name s :
  has_column name s = (Ok (bool_decide (is_Some (columns (df s) !! name))), s).
Proof. reflexivity. Qed.

(** The names built by the f-strings. *)
Ltac names :=
  repeat match goal with
    | |- context [?a +:+ ?b] =>
        let v := eval vm_compute in (a +:+ b) in change (a +:+ b) with v
    end.

Ltac lookups :=
  cbn [df columns assign];
  repeat first
    [ rewrite lookup_insert_eq
    | rewrite lookup_insert_ne by (apply String.eqb_neq; reflexivity) ].

Ltac solve_lookup := lookups; first [eassumption | reflexivity].

Ltac solve_rows := rewrite ?length_floats; lia.

Ltac exec_prim :=
  lazymatch goal with
  | |- getitem _ _ = _ =>
      first [ apply getitem_ok; solve_lookup | apply getitem_raise; solve_lookup ]
  | |- lift (TA.average_true_range _ _ _ _) _ = _ =>
      first [ apply lift_atr_ok; solve_rows | apply lift_atr_raise; solve_rows ]
  | |- _ => reflexivity
  end.

Ltac exec_step :=
  cbv zeta;
  lazymatch goal with
  | |- bind (bind _ _) _ _ = _ => rewrite bind_assoc
  | |- bind (for_each _ _) _ _ = _ => cbn [for_each]; names
  | |- bind _ _ _ = _ =>
      first [ erewrite bind_ok by exec_prim | erewrite bind_raise by exec_prim ]
  | |- for_each _ _ _ = _ => cbn [for_each]; names
  end;
  cbv beta; cbn [df columns features_created stdout].

(** The last statement of a body that returns, and the comparison of the
    state it leaves with the expected one. *)
Ltac exec_last :=
  unfold print, features_append, features_extend, setitem;
  cbn [df columns features_created stdout];
  rewrite ?floats_series, <- ?app_assoc.

Section Specs.
Context `{K : Kernels}.

Definition spec_of (p : Pass) (s : State) : Prop :=
  match effect p (prices (df s)) with
  | Some cols => call p s = (Ok tt, after p s cols)
  | None => exists e s', call p s = (Raise e, s')
  end.

Ltac exec_returns := names; repeat exec_step; exec_last; reflexivity.
Ltac exec_raises := do 2 eexists; names; repeat exec_step; reflexivity.

Lemma add_moving_averages_spec s : spec_of MovingAverages s.
Proof.
  unfold spec_of, effect, prices, call; cbn [p_close p_high p_low p_volume].
  unfold add_moving_averages.
  destruct (columns (df s) !! "Close") as [close|] eqn:E; cbn [mbind option_bind].
  - exec_returns.
  - exec_raises.
Qed.

Lemma add_momentum_indicators_spec s : spec_of Momentum s.
Proof.
  unfold spec_of, effect, prices, call; cbn [p_close p_high p_low p_volume].
  unfold add_momentum_indicators.
  destruct (columns (df s) !! "Close") as [close|] eqn:Ec; cbn [mbind option_bind];
    [|exec_raises].
  destruct (columns (df s) !! "High") as [high|] eqn:Eh; cbn [mbind option_bind];
    [|exec_raises].
  destruct (columns (df s) !! "Low") as [low|] eqn:El; cbn [mbind option_bind];
    [|exec_raises].
  exec_returns.
Qed.

Lemma add_volatility_indicators_spec s : spec_of Volatility s.
Proof.
  unfold spec_of, effect, prices, call; cbn [p_close p_high p_low p_volume].
  unfold add_volatility_indicators.
  destruct (columns (df s) !! "High") as [high|] eqn:Eh; cbn [mbind option_bind];
    [|exec_raises].
  destruct (columns (df s) !! "Low") as [low|] eqn:El; cbn [mbind option_bind];
    [|exec_raises].
  destruct (columns (df s) !! "Close") as [close|] eqn:Ec; cbn [mbind option_bind];
    [|exec_raises].
  destruct (decide (20 <= length close)%nat) as [L20|L20].
  - exec_returns.
  - destruct (decide (14 <= length close)%nat) as [L14|L14]; exec_raises.
Qed.

Lemma add_volume_indicators_spec s : spec_of Volume s.
Proof.
  unfold spec_of, effect, prices, call; cbn [p_close p_high p_low p_volume].
  unfold add_volume_indicators.
  destruct (columns (df s) !! "Volume") as [volume|] eqn:Ev.
  - destruct (columns (df s) !! "Close") as [close|] eqn:Ec; cbn [mbind option_bind].
    + unfold after, registered, printed, prices; cbn [p_volume].
      rewrite (bind_ok _ _ _ _ _ (has_column_ok _ _)), !Ev.
      rewrite bool_decide_eq_true_2 by eauto. cbn [negb].
      exec_returns.
    + do 2 eexists.
      rewrite (bind_ok _ _ _ _ _ (has_column_ok _ _)), Ev.
      rewrite bool_decide_eq_true_2 by eauto. cbn [negb].
      repeat exec_step. reflexivity.
  - rewrite (bind_ok _ _ _ _ _ (has_column_ok _ _)), Ev.
    rewrite bool_decide_eq_false_2 by (by intros [? ?]). cbn [negb].
    unfold print, after, registered, printed, prices; cbn [p_volume].
    rewrite !Ev. cbn [assign_all foldl]. rewrite app_nil_r. by destruct s.
Qed.

Lemma call_spec p s : spec_of p s.
Proof.
  destruct p.
  - apply add_moving_averages_spec.
  - apply add_momentum_indicators_spec.
  - apply add_volatility_indicators_spec.
  - apply add_volume_indicators_spec.
Qed.

End Specs.

(** ** Consequences of the characterisation *)

Section Returns.
Context `{K : Kernels}.

Lemma call_returns p s s' :
  call p s = (Ok tt, s') ->
  exists cols, effect p (prices (df s)) = Some cols /\ s' = after p s cols.
Proof.
  intros E. pose proof (call_spec p s) as H. unfold spec_of in H.
  destruct (effect p (prices (df s))) as [cols|].
  - exists cols. split; [done|]. congruence.
  - destruct H as (e & s'' & H). congruence.
Qed.

Lemma call_effect p s cols :
  effect p (prices (df s)) = Some cols -> call p s = (Ok tt, after p s cols).
Proof.
  intros E. pose proof (call_spec p s) as H. unfold spec_of in H. by rewrite E in H.
Qed.

Lemma add_moving_averages_returns s s' :
  add_moving_averages s = (Ok tt, s') ->
  exists close, columns (df s) !! "Close" = Some close /\
    s' = after MovingAverages s (moving_average_columns (floats close)).
Proof.
  intros E. destruct (call_returns MovingAverages s s' E) as (cols & Ec & ->).
  unfold effect, prices in Ec; cbn [p_close] in Ec.
  destruct (columns (df s) !! "Close") as [close|]; [|done].
  injection Ec as <-. by exists close.
Qed.

Lemma add_momentum_indicators_returns s s' :
  add_momentum_indicators s = (Ok tt, s') ->
  exists high low close,
    columns (df s) !! "High" = Some high /\
    columns (df s) !! "Low" = Some low /\
    columns (df s) !! "Close" = Some close /\
    s' = after Momentum s (momentum_columns (floats high) (floats low) (floats close)).
Proof.
  intros E. destruct (call_returns Momentum s s' E) as (cols & Ec & ->).
  unfold effect, prices in Ec; cbn [p_close p_high p_low] in Ec.
  destruct (columns (df s) !! "Close") as [close|]; [|done].
  destruct (columns (df s) !! "High") as [high|]; [|done].
  destruct (columns (df s) !! "Low") as [low|]; [|done].
  injection Ec as <-. by exists high, low, close.
Qed.

Lemma add_volume_indicators_returns s s' volume :
  add_volume_indicators s = (Ok tt, s') ->
  columns (df s) !! "Volume" = Some volume ->
  exists close, columns (df s) !! "Close" = Some close /\
    s' = after Volume s (volume_columns (floats close) (floats volume)).
Proof.
  intros E Ev. destruct (call_returns Volume s s' E) as (cols & Ec & ->).
  unfold effect, prices in Ec; cbn [p_close p_volume] in Ec. rewrite Ev in Ec.
  destruct (columns (df s) !! "Close") as [close|]; [|done].
  injection Ec as <-. by exists close.
Qed.

End Returns.

(** Cells of the signals and of element-wise results. *)

Lemma cross_lookup (a b : list float) i x y :
  a !! i = Some x -> b !! i = Some y ->
  cross a b !! i = Some (Int (if gtb x y then 1 else 0)).
Proof.
  intros Ha Hb. unfold cross, np_where, full. cbv zeta.
  pose proof (lookup_ewise gtb a b i x y Ha Hb) as Hc.
  assert (i < length (ewise gtb a b))%nat as Hlt by (by eapply lookup_lt_Some).
  rewrite lookup_zip_with, Hc. simpl.
  rewrite lookup_zip_with, !lookup_replicate_2 by done. simpl.
  by destruct (gtb x y).
Qed.

Lemma series_lookup_Float xs i x : series xs !! i = Some (Float x) -> xs !! i = Some x.
Proof.
  rewrite series_lookup. destruct (xs !! i) as [x'|]; [|done]. by intros [= ->].
Qed.

Lemma floats_lookup (c : Series) i v : c !! i = Some v -> floats c !! i = Some (to_float v).
Proof. intros H. unfold floats. by rewrite list_lookup_fmap, H. Qed.

Lemma ewise_lookup_inv {A B C} (f : A -> B -> C) xs ys i z :
  ewise f xs ys !! i = Some z ->
  exists x y, xs !! i = Some x /\ ys !! i = Some y /\ z = f x y.
Proof.
  unfold ewise. rewrite lookup_zip_with.
  destruct (xs !! i) as [x|]; [|done]. simpl.
  destruct (ys !! i) as [y|]; [|done]. simpl.
  intros [= <-]. by exists x, y.
Qed.

(** Cells of a table after the assignments of a pass. *)
Ltac cells :=
  unfold after, assign_all, moving_average_columns, momentum_columns,
    volatility_columns, volume_columns, cell in *;
  cbn [foldl fst snd df] in *;
  repeat match goal with
    | H : context [columns (assign _ _ _) !! _] |- _ => revert H
    end;
  lookups; cbn [mbind option_bind]; intros.

(** ** Sample tables *)

Definition column_of (values : list Z) : Series := (fun z => Float (of_Z z)) <$> values.

Definition days (n : nat) : list Z := Z.of_nat <$> seq 1 n.

(** Three days of prices and volumes. *)
Definition three_days : DataFrame :=
  {| index := days 3;
     columns := <["Close" := column_of [1850; 1862; 1857]]>
               (<["High" := column_of [1855; 1870; 1866]]>
               (<["Low" := column_of [1841; 1849; 1850]]>
               (<["Volume" := column_of [1200; 1500; 900]]> ∅))) |}.

(** Three days of prices, without volumes. *)
Definition three_days_no_volume : DataFrame :=
  {| index := days 3;
     columns := <["Close" := column_of [1850; 1862; 1857]]>
               (<["High" := column_of [1855; 1870; 1866]]>
               (<["Low" := column_of [1841; 1849; 1850]]> ∅)) |}.

(** Sixty days of prices that rise and fall, and volumes. *)
Definition sixty_days : DataFrame :=
  {| index := days 60;
     columns := <["Close" := column_of ((fun z => 1800 + (z * z) mod 17 + z) <$> days 60)]>
               (<["High" := column_of ((fun z => 1805 + (z * z) mod 17 + z) <$> days 60)]>
               (<["Low" := column_of ((fun z => 1795 + (z * z) mod 17 + z) <$> days 60)]>
               (<["Volume" := column_of ((fun z => 1000 + (z * 7) mod 13) <$> days 60)]> ∅))) |}.

(** ** The claims *)

(** C1. For every well-formed table and every sequence of passes, the table
    of the builder after the passes, whether the sequence ran to its end or
    stopped at an exception, has the index of the input table, hence its
    row count, and every one of its columns, the appended features included,
    has one value per row of the input table. *)
Theorem passes_preserve_rows_and_index `{K : Kernels}
    (d : DataFrame) (out : list string) (ps : list Pass) :
  wf d ->
  let s' := (run ps (__init__ d out)).2 in
  index (df s') = index d /\
  nrows (df s') = nrows d /\
  map_Forall (fun _ (c : Series) => length c = nrows d) (columns (df s')).
Proof.
  intros W s'.
  assert (shaped (index d) (nrows d) (__init__ d out)) as H0 by (by split).
  destruct (shaped_run (index d) (nrows d) ps _ H0) as [[Hi Hc] _].
  fold s' in Hi, Hc. unfold nrows at 1. by rewrite Hi.
Qed.

Lemma passes_preserve_rows_and_index_witness :
  let s' := (run [MovingAverages; Momentum; Volatility; Volume]
               (__init__ sixty_days [])).2 in
  index (df s') = index sixty_days /\
  nrows (df s') = nrows sixty_days /\
  map_Forall (fun _ (c : Series) => length c = nrows sixty_days) (columns (df s')).
Proof.
  apply (passes_preserve_rows_and_index (K := reference_kernels)
           sixty_days [] [MovingAverages; Momentum; Volatility; Volume]).
  repeat (apply map_Forall_insert_2; [reflexivity|]). apply map_Forall_empty.
Defined.

(** C4. After [add_moving_averages], at every row where SMA_20 and SMA_50
    are both numbers (not NaN), SMA_Cross_20_50 is the integer 1 if and only
    if SMA_20 > SMA_50 at that row, and the integer 0 otherwise. *)
Theorem sma_cross_signal `{K : Kernels} (s s' : State) (i : nat) (x y : float) :
  add_moving_averages s = (Ok tt, s') ->
  cell (df s') "SMA_20" i = Some (Float x) ->
  cell (df s') "SMA_50" i = Some (Float y) ->
  isnan x = false -> isnan y = false ->
  exists c : Z,
    cell (df s') "SMA_Cross_20_50" i = Some (Int c) /\
    (c = 1 <-> gtb x y = true) /\
    (c = 0 <-> gtb x y = false).
Proof.
  intros E Hx Hy _ _.
  destruct (add_moving_averages_returns s s' E) as (close & Ec & ->).
  cells. apply series_lookup_Float in Hx, Hy.
  exists (if gtb x y then 1 else 0). split.
  - by apply cross_lookup.
  - destruct (gtb x y); split; split; intros; done.
Qed.

Lemma sma_cross_signal_witness :
  exists (x y : float) (c : Z),
    isnan x = false /\ isnan y = false /\
    cell (df (add_moving_averages (__init__ sixty_days [])).2) "SMA_Cross_20_50" 55
      = Some (Int c) /\
    (c = 1 <-> gtb x y = true) /\
    (c = 0 <-> gtb x y = false).
Proof.
  pose (s := __init__ sixty_days []).
  pose (s' := (add_moving_averages (K := reference_kernels) s).2).
  pose (x := to_float (default (Int 0) (cell (df s') "SMA_20" 55))).
  pose (y := to_float (default (Int 0) (cell (df s') "SMA_50" 55))).
  exists x, y.
  assert (isnan x = false) as Nx by (vm_compute; reflexivity).
  assert (isnan y = false) as Ny by (vm_compute; reflexivity).
  destruct (sma_cross_signal (K := reference_kernels) s s' 55 x y) as (c & H);
    [vm_compute; reflexivity | vm_compute; reflexivity | vm_compute; reflexivity
    | exact Nx | exact Ny |].
  exists c. auto.
Defined.


(** C5. After [add_momentum_indicators], at every row where MACD and
    MACD_Signal are both numbers (not NaN), MACD_Diff is exactly the binary64
    difference of MACD and MACD_Signal at that row. *)
Theorem macd_diff_is_macd_minus_signal `{K : Kernels}
    (s s' : State) (i : nat) (m g : float) :
  add_momentum_indicators s = (Ok tt, s') ->
  cell (df s') "MACD" i = Some (Float m) ->
  cell (df s') "MACD_Signal" i = Some (Float g) ->
  isnan m = false -> isnan g = false ->
  cell (df s') "MACD_Diff" i = Some (Float (sub m g)).
Proof.
  intros E Hm Hg _ _.
  destruct (add_momentum_indicators_returns s s' E) as (high & low & close & _ & _ & _ & ->).
  cells. apply series_lookup_Float in Hm, Hg.
  rewrite series_lookup. unfold TA.macd_diff, TA.MACD_init. cbn [TA._macd_diff].
  unfold TA.macd, TA.macd_signal, TA.MACD_init in Hm, Hg.
  cbn [TA._macd TA._macd_signal] in Hm, Hg.
  by rewrite (lookup_ewise sub _ _ i m g Hm Hg).
Qed.

Lemma macd_diff_is_macd_minus_signal_witness :
  exists m g : float,
    isnan m = false /\ isnan g = false /\
    cell (df (add_momentum_indicators (__init__ sixty_days [])).2) "MACD_Diff" 55
      = Some (Float (sub m g)).
Proof.
  pose (s := __init__ sixty_days []).
  pose (s' := (add_momentum_indicators (K := reference_kernels) s).2).
  pose (m := to_float (default (Int 0) (cell (df s') "MACD" 55))).
  pose (g := to_float (default (Int 0) (cell (df s') "MACD_Signal" 55))).
  exists m, g.
  assert (isnan m = false) as Nm by (vm_compute; reflexivity).
  assert (isnan g = false) as Ng by (vm_compute; reflexivity).
  split; [exact Nm | split; [exact Ng |]].
  apply (macd_diff_is_macd_minus_signal (K := reference_kernels) s s' 55 m g);
    [vm_compute; reflexivity | vm_compute; reflexivity | vm_compute; reflexivity
    | exact Nm | exact Ng].
Defined.

(** C6. On a table without a Volume column, [add_volume_indicators] returns
    without raising, and leaves the table and the registry as they were: no
    column is added, so a name that was not a column before the call (OBV,
    Volume_SMA_10, Volume_SMA_20, Volume_Ratio for an input that has none of
    them) is not one after it. *)
Theorem add_volume_indicators_skips_without_volume `{K : Kernels} (s : State) :
  columns (df s) !! "Volume" = None ->
  (add_volume_indicators s).1 = Ok tt /\
  df (add_volume_indicators s).2 = df s /\
  features_created (add_volume_indicators s).2 = features_created s /\
  forall name,
    columns (df s) !! name = None ->
    columns (df (add_volume_indicators s).2) !! name = None.
Proof.
  intros Ev.
  assert (effect Volume (prices (df s)) = Some []) as Ee.
  { unfold effect, prices; cbn [p_volume]. by rewrite Ev. }
  pose proof (call_effect Volume s [] Ee) as Ec. cbn [call] in Ec. rewrite Ec.
  unfold after, registered, prices; cbn [p_volume fst snd df features_created].
  rewrite Ev, app_nil_r. done.
Qed.

Lemma add_volume_indicators_skips_without_volume_witness :
  let s := __init__ three_days_no_volume [] in
  (add_volume_indicators s).1 = Ok tt /\
  df (add_volume_indicators s).2 = df s /\
  features_created (add_volume_indicators s).2 = features_created s /\
  forall name,
    columns (df s) !! name = None ->
    columns (df (add_volume_indicators s).2) !! name = None.
Proof.
  apply (add_volume_indicators_skips_without_volume (K := reference_kernels)
           (__init__ three_days_no_volume [])).
  vm_compute. reflexivity.
Defined.

(** C7. After [add_volume_indicators] on a table with a Volume column:
    Volume_SMA_20 is the rolling mean of Volume over 20 rows; at every row
    Volume_Ratio is the binary64 quotient of Volume by Volume_SMA_20; and at
    every row [i < 19] Volume_SMA_20 is NaN, so Volume_Ratio is NaN. *)
Theorem volume_ratio_is_volume_over_sma_20 `{K : Kernels}
    (s s' : State) (volume : Series) (i : nat) :
  add_volume_indicators s = (Ok tt, s') ->
  columns (df s) !! "Volume" = Some volume ->
  (i < length volume)%nat ->
  columns (df s') !! "Volume_SMA_20" = Some (series (rolling_mean 20 (floats volume))) /\
  (exists (v : Scalar) (m : float),
     cell (df s') "Volume" i = Some v /\
     cell (df s') "Volume_SMA_20" i = Some (Float m) /\
     cell (df s') "Volume_Ratio" i = Some (Float (div (to_float v) m))) /\
  ((i < 19)%nat ->
     cell (df s') "Volume_SMA_20" i = Some (Float NaN) /\
     cell (df s') "Volume_Ratio" i = Some (Float NaN)).
Proof.
  intros E Ev Hi.
  destruct (add_volume_indicators_returns s s' volume E Ev) as (close & Ec & ->).
  destruct (lookup_lt_is_Some_2 volume i Hi) as [v Hv].
  assert (i < length (rolling_mean 20 (floats volume)))%nat as Hm
    by (by rewrite length_rolling_mean, length_floats).
  destruct (lookup_lt_is_Some_2 _ i Hm) as [m Em].
  pose proof (floats_lookup volume i v Hv) as Hfv.
  cells. rewrite Ev. cbn [mbind option_bind]. split; [done|]. split.
  - exists v, m. split; [done|]. rewrite !series_lookup, Em. split; [done|].
    by rewrite (lookup_ewise div _ _ i _ _ Hfv Em).
  - intros H19.
    assert (rolling_mean 20 (floats volume) !! i = Some NaN) as En.
    { apply rolling_mean_short; [lia | by rewrite length_floats]. }
    rewrite !series_lookup, En. split; [done|].
    rewrite (lookup_ewise div _ _ i _ _ Hfv En). cbn [fmap option_fmap option_map].
    by rewrite div_nan_r.
Qed.

Lemma volume_ratio_is_volume_over_sma_20_witness :
  let s := __init__ three_days [] in
  let s' := (add_volume_indicators s).2 in
  cell (df s') "Volume_SMA_20" 1 = Some (Float NaN) /\
  cell (df s') "Volume_Ratio" 1 = Some (Float NaN).
Proof.
  intros s s'.
  refine (proj2 (proj2
    (volume_ratio_is_volume_over_sma_20 (K := reference_kernels)
       s s' (column_of [1200; 1500; 900]) 1 _ _ _)) _).
  - vm_compute. reflexivity.
  - vm_compute. reflexivity.
  - simpl. lia.
  - lia.
Defined.

(** C10. After [add_moving_averages], SMA_Cross_20_50 is the integer 0, and
    not NaN, at every row where SMA_20 or SMA_50 is NaN, which is the case
    of every row [i < 49]; and EMA_Cross_12_26 is the integer 0 at every row
    where EMA_12 or EMA_26 is NaN. *)
Theorem cross_signals_are_zero_on_nan `{K : Kernels}
    (s s' : State) (close : Series) (i : nat) :
  add_moving_averages s = (Ok tt, s') ->
  columns (df s) !! "Close" = Some close ->
  (i < length close)%nat ->
  (forall x y,
     cell (df s') "SMA_20" i = Some (Float x) ->
     cell (df s') "SMA_50" i = Some (Float y) ->
     isnan x = true \/ isnan y = true ->
     cell (df s') "SMA_Cross_20_50" i = Some (Int 0)) /\
  ((i < 49)%nat ->
     cell (df s') "SMA_50" i = Some (Float NaN) /\
     cell (df s') "SMA_Cross_20_50" i = Some (Int 0)) /\
  (forall x y,
     cell (df s') "EMA_12" i = Some (Float x) ->
     cell (df s') "EMA_26" i = Some (Float y) ->
     isnan x = true \/ isnan y = true ->
     cell (df s') "EMA_Cross_12_26" i = Some (Int 0)).
Proof.
  intros E Ec Hi.
  destruct (add_moving_averages_returns s s' E) as (close' & Ec' & ->).
  assert (close' = close) as -> by congruence.
  cells. repeat split.
  - intros x y Hx Hy Hnan. apply series_lookup_Float in Hx, Hy.
    rewrite (cross_lookup _ _ i x y Hx Hy). by rewrite (gtb_isnan x y Hnan).
  - rewrite series_lookup. unfold TA.sma_indicator, TA._sma.
    rewrite rolling_mean_short; [done | lia | by rewrite length_floats].
  - assert (i < length (TA.sma_indicator (floats close) 20))%nat as H20
      by (by rewrite TA.length_sma_indicator, length_floats).
    destruct (lookup_lt_is_Some_2 _ i H20) as [x Hx].
    assert (TA.sma_indicator (floats close) 50 !! i = Some NaN) as Hy.
    { unfold TA.sma_indicator, TA._sma.
      apply rolling_mean_short; [lia | by rewrite length_floats]. }
    rewrite (cross_lookup _ _ i x NaN Hx Hy). by rewrite gtb_nan_r.
  - intros x y Hx Hy Hnan. apply series_lookup_Float in Hx, Hy.
    rewrite (cross_lookup _ _ i x y Hx Hy). by rewrite (gtb_isnan x y Hnan).
Qed.

Lemma cross_signals_are_zero_on_nan_witness :
  let s := __init__ sixty_days [] in
  let s' := (add_moving_averages s).2 in
  cell (df s') "SMA_50" 30 = Some (Float NaN) /\
  cell (df s') "SMA_Cross_20_50" 30 = Some (Int 0).
Proof.
  intros s s'.
  refine (proj1 (proj2
    (cross_signals_are_zero_on_nan (K := reference_kernels) s s'
       (column_of ((fun z => 1800 + (z * z) mod 17 + z) <$> days 60)) 30 _ _ _)) _).
  - vm_compute. reflexivity.
  - vm_compute. reflexivity.
  - vm_compute. lia.
  - lia.
Defined.


(** The column SMA_20 after [add_moving_averages]: the rolling mean of Close
    over 20 rows as pandas computes it, NaN on the first 19 rows.  (What the
    rolling mean is on the later rows is decided by the summation inside
    pandas, which is not part of this development.) *)
Lemma sma_20_is_rolling_mean `{K : Kernels} (s s' : State) (close : Series) :
  add_moving_averages s = (Ok tt, s') ->
  columns (df s) !! "Close" = Some close ->
  columns (df s') !! "SMA_20" = Some (series (rolling_mean 20 (floats close))) /\
  forall i, (i < 19)%nat -> (i < length close)%nat ->
    cell (df s') "SMA_20" i = Some (Float NaN).
Proof.
  intros E Ec.
  destruct (add_moving_averages_returns s s' E) as (close' & Ec' & ->).
  assert (close' = close) as -> by congruence.
  cells. split; [done|]. intros i H19 Hi.
  rewrite series_lookup. unfold TA.sma_indicator, TA._sma.
  rewrite rolling_mean_short; [done | lia | by rewrite length_floats].
Qed.

(** C9. The registry after [add_moving_averages] on three days of prices:
    the pass returns, the table has the columns SMA_Cross_20_50 and
    EMA_Cross_12_26, which the input table did not have, and neither name is
    in the registry; the pass prints that it added 14 indicators. *)
Theorem cross_signals_are_not_registered :
  let s := __init__ three_days [] in
  let r := add_moving_averages (K := reference_kernels) s in
  r.1 = Ok tt /\
  columns (df s) !! "SMA_Cross_20_50" = None /\
  columns (df s) !! "EMA_Cross_12_26" = None /\
  columns (df r.2) !! "SMA_Cross_20_50" = Some [Int 0; Int 0; Int 0] /\
  columns (df r.2) !! "EMA_Cross_12_26" = Some [Int 0; Int 0; Int 0] /\
  features_created r.2 =
    ["SMA_5"; "SMA_10"; "SMA_20"; "SMA_50"; "SMA_100"; "SMA_200";
     "EMA_9"; "EMA_12"; "EMA_21"; "EMA_26"; "EMA_50"] /\
  ~ In "SMA_Cross_20_50" (features_created r.2) /\
  ~ In "EMA_Cross_12_26" (features_created r.2) /\
  last (stdout r.2) = Some " 14 indicadores de medias móviles agregados.".
Proof.
  vm_compute. repeat split; try reflexivity; intros H; intuition discriminate.
Qed.

(** The registry misses the two signals on every table: the names the pass
    registers when it returns do not depend on the table. *)
Lemma add_moving_averages_registers `{K : Kernels} (s s' : State) :
  add_moving_averages s = (Ok tt, s') ->
  features_created s' =
    (features_created s ++
       ["SMA_5"; "SMA_10"; "SMA_20"; "SMA_50"; "SMA_100"; "SMA_200";
        "EMA_9"; "EMA_12"; "EMA_21"; "EMA_26"; "EMA_50"])%list /\
  is_Some (columns (df s') !! "SMA_Cross_20_50") /\
  is_Some (columns (df s') !! "EMA_Cross_12_26").
Proof.
  intros E. destruct (add_moving_averages_returns s s' E) as (close & Ec & ->).
  cells. cbn [features_created registered]. eauto.
Qed.

(** ** Objects: the caller's table and the builder's *)

Definition loc : Type := positive.

(** The builder as an object: [self.df] is a reference to a table in the
    heap. *)
Record GoldFeatureEngineering : Type := {
  self_df : loc;
  self_features_created : list string
}.

Record World : Type := {
  heap : gmap loc DataFrame;
  console : list string
}.

(** [GoldFeatureEngineering(df)], where [df] refers to the table of the
    caller: the copy is a new object of the heap. *)
Definition construct (caller_df : loc) (w : World) : option (GoldFeatureEngineering * World) :=
  d ← heap w !! caller_df;
  let s := __init__ d (console w) in
  let l := fresh (dom (heap w)) in
  Some ({| self_df := l; self_features_created := features_created s |},
        {| heap := <[l := df s]> (heap w); console := stdout s |}).

(** A method call on the builder: the body runs on the table [self.df]
    refers to, and what it assigns is assigned to that object. *)
Definition invoke (m : M unit) (b : GoldFeatureEngineering) (w : World)
    : option (outcome unit * GoldFeatureEngineering * World) :=
  d ← heap w !! self_df b;
  let r := m {| df := d;
                features_created := self_features_created b;
                stdout := console w |} in
  Some (r.1,
        {| self_df := self_df b; self_features_created := features_created r.2 |},
        {| heap := <[self_df b := df r.2]> (heap w); console := stdout r.2 |}).

(** A sequence of calls of passes, up to the first that raises. *)
Fixpoint invoke_all `{K : Kernels} (ps : list Pass) (b : GoldFeatureEngineering) (w : World)
    : option (outcome unit * GoldFeatureEngineering * World) :=
  match ps with
  | [] => Some (Ok tt, b, w)
  | p :: r =>
      match invoke (call p) b w with
      | Some (Ok _, b', w') => invoke_all r b' w'
      | other => other
      end
  end.

(** A caller with one table, at address 1. *)
Definition caller_world : World :=
  {| heap := {[ 1%positive := three_days ]}; console := [] |}.

Lemma invoke_frame (m : M unit) (b : GoldFeatureEngineering) (w : World) (l : loc) :
  l <> self_df b ->
  is_Some (heap w !! self_df b) ->
  exists r b' w',
    invoke m b w = Some (r, b', w') /\
    self_df b' = self_df b /\
    is_Some (heap w' !! self_df b') /\
    heap w' !! l = heap w !! l.
Proof.
  intros Hl [d Hd]. unfold invoke. rewrite Hd. cbn [mbind option_bind].
  eexists _, _, _. split; [reflexivity|]. cbn [self_df heap].
  split; [done|]. split.
  - rewrite lookup_insert_eq. eauto.
  - by rewrite lookup_insert_ne.
Qed.

Lemma invoke_all_frame `{K : Kernels} (ps : list Pass) (b : GoldFeatureEngineering) (w : World) (l : loc) :
  l <> self_df b ->
  is_Some (heap w !! self_df b) ->
  exists r b' w',
    invoke_all ps b w = Some (r, b', w') /\ heap w' !! l = heap w !! l.
Proof.
  revert b w. induction ps as [|p ps IH]; intros b w Hl Hb; cbn [invoke_all].
  - by eexists _, _, _.
  - destruct (invoke_frame (call p) b w l Hl Hb) as (r & b' & w' & -> & Eb & Hb' & Hw).
    destruct r as [[]|e].
    + rewrite <- Eb in Hl. destruct (IH b' w' Hl Hb') as (r & b'' & w'' & -> & Hw').
      eexists _, _, _. split; [reflexivity|]. congruence.
    + by eexists _, _, _.
Qed.

(** C2. The constructor copies the table of the caller into a new object,
    and every sequence of passes invoked on the builder afterwards runs, to
    its end or to an exception, and leaves the table of the caller (index,
    columns and values) as it was. *)
Theorem caller_table_is_not_mutated `{K : Kernels}
    (w : World) (caller_df : loc) (d : DataFrame) (ps : list Pass) :
  heap w !! caller_df = Some d ->
  exists b w1 r b' w',
    construct caller_df w = Some (b, w1) /\
    self_df b <> caller_df /\
    heap w1 !! self_df b = Some (copy d) /\
    invoke_all ps b w1 = Some (r, b', w') /\
    heap w' !! caller_df = Some d.
Proof.
  intros Hd. unfold construct. rewrite Hd. cbn [mbind option_bind].
  set (l := fresh (dom (heap w))).
  assert (l <> caller_df) as Hl.
  { intros E. apply (is_fresh (dom (heap w))). apply elem_of_dom.
    exists d. fold l. by rewrite E. }
  set (b := {| self_df := l; self_features_created := _ |}).
  set (w1 := {| heap := _; console := _ |}).
  assert (heap w1 !! self_df b = Some (copy d)) as Hb
    by (cbn [heap self_df w1 b]; by rewrite lookup_insert_eq).
  destruct (invoke_all_frame ps b w1 caller_df) as (r & b' & w' & E & Hw);
    [by apply not_eq_sym | by rewrite Hb |].
  exists b, w1, r, b', w'. repeat split; try done.
  rewrite Hw. cbn [heap w1]. by rewrite lookup_insert_ne.
Qed.

Lemma caller_table_is_not_mutated_witness :
  exists b w1 r b' w',
    construct 1%positive caller_world = Some (b, w1) /\
    self_df b <> 1%positive /\
    heap w1 !! self_df b = Some (copy three_days) /\
    invoke_all (K := reference_kernels) [MovingAverages; Momentum; Volume] b w1
      = Some (r, b', w') /\
    heap w' !! 1%positive = Some three_days.
Proof.
  apply (caller_table_is_not_mutated (K := reference_kernels) caller_world 1%positive
           three_days [MovingAverages; Momentum; Volume]).
  reflexivity.
Defined.

(** Without the copy the passes would assign to the table of the caller: a
    builder that refers to the caller's own table adds its columns to it. *)
Lemma a_shared_table_is_mutated :
  let b := {| self_df := 1%positive; self_features_created := [] |} in
  exists r b' w',
    invoke_all (K := reference_kernels) [Volume] b caller_world = Some (r, b', w') /\
    heap w' !! 1%positive <> Some three_days.
Proof.
  eexists _, _, _. split; [reflexivity|].
  intros H. apply (f_equal (fun o => o ≫= (fun d => columns d !! "OBV"))) in H.
  vm_compute in H. discriminate H.
Qed.

(** ** The order of the passes *)

Definition disjoint_names (a b : list string) : bool :=
  forallb (fun x => forallb (fun y => negb (String.eqb x y)) b) a.

Lemma assign_swap n c m c' d :
  n <> m -> assign n c (assign m c' d) = assign m c' (assign n c d).
Proof. intros N. unfold assign. cbn [index columns]. f_equal. by apply insert_insert_ne. Qed.

Lemma assign_assign_all n c cols d :
  forallb (fun y => negb (String.eqb n y)) cols.*1 = true ->
  assign n c (assign_all cols d) = assign_all cols (assign n c d).
Proof.
  revert d. induction cols as [|[m c'] r IH]; intros d H; [done|].
  cbn in H. apply andb_prop in H as [Hm Hr].
  unfold assign_all in *. cbn [foldl fst snd]. rewrite IH by done.
  f_equal. apply assign_swap. apply String.eqb_neq. by destruct (String.eqb n m).
Qed.

Lemma assign_all_comm c1 c2 d :
  disjoint_names c1.*1 c2.*1 = true ->
  assign_all c1 (assign_all c2 d) = assign_all c2 (assign_all c1 d).
Proof.
  revert d. induction c1 as [|[n c] r IH]; intros d H; [done|].
  cbn in H. apply andb_prop in H as [Hn Hr].
  change (assign_all ((n, c) :: r) ?x) with (assign_all r (assign n c x)).
  rewrite assign_assign_all by done. by apply IH.
Qed.

Definition same_table (s t : State) : Prop :=
  df s = df t /\ features_created s ≡ₚ features_created t.

Section Order.
Context `{K : Kernels}.

(** No pass assigns a price or volume column. *)
Lemma prices_after_effect p pr cols d :
  effect p pr = Some cols -> prices (assign_all cols d) = prices d.
Proof.
  destruct pr as [c h l v]. intros E.
  destruct p; unfold effect in E; cbn [p_close p_high p_low p_volume] in E;
    repeat match type of E with
      | context [mbind _ ?o] => destruct o; cbn [mbind option_bind] in E
      | context [match ?o with Some _ => _ | None => _ end] => destruct o
      | context [decide ?P] => destruct (decide P)
      end;
    try discriminate; injection E as <-;
    unfold prices, assign_all, moving_average_columns, momentum_columns,
      volatility_columns, volume_columns;
    cbn [foldl fst snd]; lookups; reflexivity.
Qed.

(** Two different passes assign different columns. *)
Lemma effect_disjoint p q pr cp cq :
  p <> q -> effect p pr = Some cp -> effect q pr = Some cq ->
  disjoint_names cp.*1 cq.*1 = true.
Proof.
  destruct pr as [c h l v]. intros N Ep Eq'.
  destruct p, q; try done;
    unfold effect in Ep, Eq'; cbn [p_close p_high p_low p_volume] in Ep, Eq';
    repeat match goal with
      | H : context [mbind _ ?o] |- _ => destruct o; cbn [mbind option_bind] in H
      | H : context [match ?o with Some _ => _ | None => _ end] |- _ => destruct o
      | H : context [decide ?P] |- _ => destruct (decide P)
      end;
    try discriminate; injection Ep as <-; injection Eq' as <-; reflexivity.
Qed.

Lemma run_cons p ps s s1 :
  run (p :: ps) s = (Ok tt, s1) <->
  exists s', call p s = (Ok tt, s') /\ run ps s' = (Ok tt, s1).
Proof.
  unfold run. cbn [for_each]. unfold bind.
  destruct (call p s) as [[[]|e] s']; split.
  - intros H. by exists s'.
  - by intros (s'' & [= <-] & H).
  - done.
  - by intros (s'' & [=] & _).
Qed.

Lemma run_nil s s1 : run [] s = (Ok tt, s1) <-> s1 = s.
Proof. unfold run. cbn. split; [by intros [= <-] | by intros ->]. Qed.

(** A pass does the same on two states with one table. *)
Lemma call_same_table p s t s1 :
  same_table s t -> call p s = (Ok tt, s1) ->
  exists t1, call p t = (Ok tt, t1) /\ same_table s1 t1.
Proof.
  intros [Hd Hf] E. destruct (call_returns p s s1 E) as (cols & Ee & ->).
  rewrite Hd in Ee. exists (after p t cols). split; [by apply call_effect|].
  unfold same_table, after. cbn [df features_created]. rewrite Hd.
  split; [done|]. by rewrite Hf.
Qed.

Lemma run_same_table ps s t s1 :
  same_table s t -> run ps s = (Ok tt, s1) ->
  exists t1, run ps t = (Ok tt, t1) /\ same_table s1 t1.
Proof.
  revert s t. induction ps as [|p ps IH]; intros s t Hst E.
  - apply run_nil in E as ->. exists t. by rewrite run_nil.
  - apply run_cons in E as (s' & Ep & Er).
    destruct (call_same_table p s t s' Hst Ep) as (t' & Ep' & Hst').
    destruct (IH s' t' Hst' Er) as (t1 & Er' & H1).
    exists t1. split; [|done]. apply run_cons. eauto.
Qed.

(** Two passes in a row, in the other order. *)
Lemma call_swap p q s s1 :
  run [p; q] s = (Ok tt, s1) ->
  exists s2, run [q; p] s = (Ok tt, s2) /\ same_table s1 s2.
Proof.
  intros E. apply run_cons in E as (s' & Ep & E). apply run_cons in E as (s'' & Eq' & E).
  apply run_nil in E as ->.
  destruct (decide (p = q)) as [->|N].
  { exists s''. split; [|done]. apply run_cons. exists s'. split; [done|].
    apply run_cons. exists s''. split; [done|]. by apply run_nil. }
  destruct (call_returns p s s' Ep) as (cp & Ecp & ->).
  destruct (call_returns q _ s'' Eq') as (cq & Ecq & ->).
  cbn [after df] in Ecq. rewrite (prices_after_effect p _ cp _ Ecp) in Ecq.
  assert (prices (df (after q s cq)) = prices (df s)) as Hq
    by (cbn [after df]; apply (prices_after_effect q _ cq _ Ecq)).
  exists (after p (after q s cq) cp). split.
  - apply run_cons. exists (after q s cq). split; [by apply call_effect|].
    apply run_cons. eexists. split; [|by apply run_nil].
    apply call_effect. by rewrite Hq.
  - unfold same_table, after. cbn [df features_created].
    rewrite (prices_after_effect p _ cp _ Ecp), (prices_after_effect q _ cq _ Ecq).
    split.
    + apply assign_all_comm. by apply (effect_disjoint q p (prices (df s))).
    + rewrite <- !app_assoc. apply Permutation_app_head, Permutation_app_comm.
Qed.

End Order.

Lemma same_table_refl s : same_table s s.
Proof. by split. Qed.

Lemma same_table_trans s t u : same_table s t -> same_table t u -> same_table s u.
Proof. intros [H1 H2] [H3 H4]. split; [congruence | by rewrite H2]. Qed.

Lemma run_permutation `{K : Kernels} (ps ps' : list Pass) :
  ps ≡ₚ ps' ->
  forall s t s1, same_table s t -> run ps s = (Ok tt, s1) ->
    exists t1, run ps' t = (Ok tt, t1) /\ same_table s1 t1.
Proof.
  induction 1 as [|x l l' Hl IH|x y l|l l' l'' H1 IH1 H2 IH2]; intros s t s1 Hst E.
  - by apply (run_same_table [] s t).
  - apply run_cons in E as (s' & Ex & El).
    destruct (call_same_table x s t s' Hst Ex) as (t' & Ex' & Hst').
    destruct (IH s' t' s1 Hst' El) as (t1 & El' & H1).
    exists t1. split; [|done]. apply run_cons. eauto.
  - apply run_cons in E as (s' & Ey & E). apply run_cons in E as (s'' & Ex & El).
    assert (run [y; x] s = (Ok tt, s'')) as Eyx.
    { apply run_cons. exists s'. split; [done|]. apply run_cons. exists s''.
      split; [done|]. by apply run_nil. }
    destruct (call_swap y x s s'' Eyx) as (s2 & Exy & H2).
    destruct (run_same_table [x; y] s t s2 Hst Exy) as (t2 & Exy' & H2').
    destruct (run_same_table l s'' t2 s1 (same_table_trans _ _ _ H2 H2') El)
      as (t1 & El' & H1).
    exists t1. split; [|done].
    apply run_cons in Exy' as (t' & Ex' & E'). apply run_cons in E' as (t'' & Ey' & E').
    apply run_nil in E' as ->.
    apply run_cons. exists t'. split; [done|]. apply run_cons. eauto.
  - destruct (IH1 s s s1 (same_table_refl s) E) as (u & Eu & Hu).
    destruct (IH2 s t u Hst Eu) as (t1 & Et & Ht).
    exists t1. split; [done|]. by apply (same_table_trans _ u).
Qed.

(** C8 as stated fails.  On three days of prices and volumes, where no
    column of the moving-average pass exists, the volume pass returns and
    assigns Volume_SMA_10, Volume_SMA_20 and Volume_Ratio itself; and the
    moving-average pass creates no volume column. *)
Lemma volume_pass_needs_no_moving_average_column :
  let s := __init__ three_days [] in
  let v := add_volume_indicators (K := reference_kernels) s in
  let m := add_moving_averages (K := reference_kernels) s in
  (forall name, In name (moving_average_columns (K := reference_kernels) []).*1 ->
     columns (df s) !! name = None) /\
  v.1 = Ok tt /\
  is_Some (columns (df v.2) !! "Volume_SMA_10") /\
  is_Some (columns (df v.2) !! "Volume_SMA_20") /\
  is_Some (columns (df v.2) !! "Volume_Ratio") /\
  m.1 = Ok tt /\
  columns (df m.2) !! "Volume_SMA_10" = None /\
  columns (df m.2) !! "Volume_SMA_20" = None.
Proof.
  cbv zeta. split.
  - intros name H. cbn in H.
    repeat (destruct H as [<-|H]; [vm_compute; reflexivity|]). destruct H.
  - vm_compute. repeat split; eauto.
Qed.

(** * Further properties of the passes *)

(** ** Missing columns *)

Lemma returns_iff_effect `{K : Kernels} (p : Pass) (s : State) :
  (call p s).1 = Ok tt <-> is_Some (effect p (prices (df s))).
Proof.
  pose proof (call_spec p s) as H. unfold spec_of in H.
  destruct (effect p (prices (df s))) as [cols|].
  - rewrite H. split; [eauto | done].
  - destruct H as (e & s' & ->). split; [done | by intros [? ?]].
Qed.

(** X1. The columns each pass needs.  [add_moving_averages] returns exactly
    when the table has a Close column; [add_momentum_indicators] exactly
    when it has Close, High and Low; [add_volume_indicators] exactly when it
    has no Volume column (the pass is skipped) or has a Close column. *)
Theorem passes_return_iff_columns_present `{K : Kernels} (s : State) :
  ((add_moving_averages s).1 = Ok tt <-> is_Some (columns (df s) !! "Close")) /\
  ((add_momentum_indicators s).1 = Ok tt <->
     is_Some (columns (df s) !! "Close") /\
     is_Some (columns (df s) !! "High") /\
     is_Some (columns (df s) !! "Low")) /\
  ((add_volume_indicators s).1 = Ok tt <->
     columns (df s) !! "Volume" = None \/ is_Some (columns (df s) !! "Close")).
Proof.
  pose proof (returns_iff_effect MovingAverages s) as H1.
  pose proof (returns_iff_effect Momentum s) as H2.
  pose proof (returns_iff_effect Volume s) as H3.
  cbn [call] in H1, H2, H3. rewrite H1, H2, H3. clear H1 H2 H3.
  unfold effect, prices; cbn [p_close p_high p_low p_volume].
  destruct (columns (df s) !! "Close") as [close|];
    destruct (columns (df s) !! "High") as [high|];
    destruct (columns (df s) !! "Low") as [low|];
    destruct (columns (df s) !! "Volume") as [volume|];
    cbn [mbind option_bind]; unfold is_Some;
    repeat split; intros;
    repeat match goal with
      | H : exists _, _ |- _ => destruct H
      | H : _ /\ _ |- _ => destruct H
      | H : _ \/ _ |- _ => destruct H
      end;
    try discriminate; eauto.
Qed.

(** X2. Without a Close column [add_moving_averages] raises
    [KeyError('Close')] at its first indicator: it has printed its first
    line, and the table and the registry are as they were. *)
Theorem add_moving_averages_without_close `{K : Kernels} (s : State) :
  columns (df s) !! "Close" = None ->
  add_moving_averages s =
    (Raise (KeyError "Close"),
     {| df := df s;
        features_created := features_created s;
        stdout := (stdout s ++ ["Agregando medias móviles..."])%list |}).
Proof.
  intros E. unfold add_moving_averages. names. repeat exec_step. reflexivity.
Qed.

(** A table with nothing but its index. *)
Definition empty_table : DataFrame := {| index := days 3; columns := ∅ |}.

Lemma add_moving_averages_without_close_witness :
  (add_moving_averages (K := reference_kernels) (__init__ empty_table [])).1
    = Raise (KeyError "Close").
Proof.
  rewrite (add_moving_averages_without_close (K := reference_kernels)
             (__init__ empty_table [])); reflexivity.
Defined.

(** X3. A pass is not all or nothing.  On a table with a Close column and
    no High column, [add_momentum_indicators] raises [KeyError('High')]
    after it has assigned and registered RSI_14 and RSI_21: these two
    columns stay in the table, and nothing else is added. *)
Theorem add_momentum_indicators_without_high `{K : Kernels} (s : State) (close : Series) :
  columns (df s) !! "Close" = Some close ->
  columns (df s) !! "High" = None ->
  add_momentum_indicators s =
    (Raise (KeyError "High"),
     {| df := assign "RSI_21" (series (TA.rsi (floats close) 21))
                (assign "RSI_14" (series (TA.rsi (floats close) 14)) (df s));
        features_created := (features_created s ++ ["RSI_14"; "RSI_21"])%list;
        stdout := (stdout s ++ ["Agregando indicadores de momentum..."])%list |}).
Proof.
  intros Ec Eh. unfold add_momentum_indicators. names. repeat exec_step.
  rewrite <- ?app_assoc. reflexivity.
Qed.

(** Three days of closing prices only. *)
Definition close_only : DataFrame :=
  {| index := days 3;
     columns := <["Close" := column_of [1850; 1862; 1857]]> ∅ |}.

Lemma add_momentum_indicators_without_high_witness :
  let r := add_momentum_indicators (K := reference_kernels) (__init__ close_only []) in
  r.1 = Raise (KeyError "High") /\
  features_created r.2 = ["RSI_14"; "RSI_21"].
Proof.
  cbv zeta.
  rewrite (add_momentum_indicators_without_high (K := reference_kernels)
             (__init__ close_only []) (column_of [1850; 1862; 1857]));
    [split; reflexivity | reflexivity | reflexivity].
Defined.

(** A method call that raises [KeyError(name)] and leaves the table and the
    registry as they were. *)
Definition raises_untouched (r : outcome unit * State) (s : State) (name : string) : Prop :=
  r.1 = Raise (KeyError name) /\
  df r.2 = df s /\
  features_created r.2 = features_created s.

(** X4. [add_volatility_indicators] reads High, Low and Close, in this
    order, for its first indicator: the first of them that is missing is
    the [KeyError], and the table and the registry are as they were. *)
Theorem add_volatility_indicators_missing_column `{K : Kernels} (s : State) :
  (columns (df s) !! "High" = None ->
     raises_untouched (add_volatility_indicators s) s "High") /\
  (is_Some (columns (df s) !! "High") -> columns (df s) !! "Low" = None ->
     raises_untouched (add_volatility_indicators s) s "Low") /\
  (is_Some (columns (df s) !! "High") -> is_Some (columns (df s) !! "Low") ->
   columns (df s) !! "Close" = None ->
     raises_untouched (add_volatility_indicators s) s "Close").
Proof.
  split; [intros Eh | split; [intros [high Eh] El | intros [high Eh] [low El] Ec]];
    (eassert (add_volatility_indicators s = _) as ->
       by (unfold add_volatility_indicators; names; repeat exec_step; reflexivity));
    by repeat split.
Qed.

Lemma add_volatility_indicators_missing_column_witness :
  raises_untouched
    (add_volatility_indicators (K := reference_kernels) (__init__ close_only []))
    (__init__ close_only []) "High".
Proof.
  apply (add_volatility_indicators_missing_column (K := reference_kernels)
           (__init__ close_only [])).
  reflexivity.
Defined.

(** X5. On a table with a Volume column and no Close column
    [add_volume_indicators] is not skipped: it raises [KeyError('Close')]
    at the on-balance volume, before any assignment. *)
Theorem add_volume_indicators_without_close `{K : Kernels} (s : State) (volume : Series) :
  columns (df s) !! "Volume" = Some volume ->
  columns (df s) !! "Close" = None ->
  add_volume_indicators s =
    (Raise (KeyError "Close"),
     {| df := df s;
        features_created := features_created s;
        stdout := (stdout s ++ ["Agregando indicadores de volumen..."])%list |}).
Proof.
  intros Ev Ec. unfold add_volume_indicators.
  rewrite (bind_ok _ _ _ _ _ (has_column_ok _ _)), Ev.
  rewrite bool_decide_eq_true_2 by eauto. cbn [negb].
  repeat exec_step. reflexivity.
Qed.

(** Three days of volumes only. *)
Definition volume_only : DataFrame :=
  {| index := days 3;
     columns := <["Volume" := column_of [1200; 1500; 900]]> ∅ |}.

Lemma add_volume_indicators_without_close_witness :
  (add_volume_indicators (K := reference_kernels) (__init__ volume_only [])).1
    = Raise (KeyError "Close").
Proof.
  rewrite (add_volume_indicators_without_close (K := reference_kernels)
             (__init__ volume_only []) (column_of [1200; 1500; 900]));
    reflexivity.
Defined.

(** ** The rate of change *)

Lemma sub_nan_r x : sub x NaN = NaN.
Proof. by destruct x. Qed.

Lemma shift_lookup_lt (n : nat) (xs : list float) (i : nat) :
  (i < n)%nat -> (i < length xs)%nat -> shift n xs !! i = Some NaN.
Proof.
  intros Hn Hi. unfold shift. rewrite lookup_take_lt by done.
  rewrite lookup_app_l by (by rewrite length_replicate).
  by apply lookup_replicate_2.
Qed.

Lemma shift_lookup_ge (n : nat) (xs : list float) (i : nat) :
  (n <= i)%nat -> (i < length xs)%nat -> shift n xs !! i = xs !! (i - n)%nat.
Proof.
  intros Hn Hi. unfold shift. rewrite lookup_take_lt by done.
  rewrite lookup_app_r by (by rewrite length_replicate).
  by rewrite length_replicate.
Qed.

Lemma rate_of_change_short `{K : Kernels} (close : list float) (period i : nat) :
  (i < period)%nat -> (i < length close)%nat ->
  rate_of_change close period !! i = Some NaN.
Proof.
  intros Hp Hi. destruct (lookup_lt_is_Some_2 close i Hi) as [c Hc].
  pose proof (shift_lookup_lt period close i Hp Hi) as Hs.
  unfold rate_of_change. rewrite list_lookup_fmap.
  rewrite (lookup_ewise div _ _ i _ _ (lookup_ewise sub _ _ i _ _ Hc Hs) Hs).
  by rewrite sub_nan_r.
Qed.

Lemma rate_of_change_lookup `{K : Kernels} (close : list float) (period i : nat) (c c0 : float) :
  (period <= i)%nat -> close !! i = Some c -> close !! (i - period)%nat = Some c0 ->
  rate_of_change close period !! i = Some (mul (div (sub c c0) c0) (of_Z 100)).
Proof.
  intros Hp Hc Hc0. assert (i < length close)%nat as Hi by (by eapply lookup_lt_Some).
  pose proof (shift_lookup_ge period close i Hp Hi) as Hs. rewrite Hc0 in Hs.
  unfold rate_of_change. rewrite list_lookup_fmap.
  by rewrite (lookup_ewise div _ _ i _ _ (lookup_ewise sub _ _ i _ _ Hc Hs) Hs).
Qed.

(** X6. After [add_momentum_indicators], for the period 10 or 20: ROC is
    NaN on the first [period] rows, and at every later row [i] it is,
    computed in binary64 in this order,
    [(Close[i] - Close[i - period]) / Close[i - period] * 100]. *)
Theorem rate_of_change_formula `{K : Kernels}
    (s s' : State) (close : Series) (period i : nat) :
  add_momentum_indicators s = (Ok tt, s') ->
  columns (df s) !! "Close" = Some close ->
  period = 10%nat \/ period = 20%nat ->
  (i < length close)%nat ->
  ((i < period)%nat ->
     cell (df s') ("ROC_" +:+ str period) i = Some (Float NaN)) /\
  (forall c c0 : Scalar,
     (period <= i)%nat ->
     close !! i = Some c -> close !! (i - period)%nat = Some c0 ->
     cell (df s') ("ROC_" +:+ str period) i =
       Some (Float (mul (div (sub (to_float c) (to_float c0)) (to_float c0)) (of_Z 100)))).
Proof.
  intros E Ec Hp Hi.
  destruct (add_momentum_indicators_returns s s' E) as (high & low & close' & _ & _ & Ec' & ->).
  assert (close' = close) as -> by congruence.
  destruct Hp as [-> | ->]; names; cells; rewrite series_lookup; split.
  1, 3: intros Hlt; rewrite rate_of_change_short; [done | done | by rewrite length_floats].
  all: intros c c0 Hge Hc Hc0;
    by rewrite (rate_of_change_lookup _ _ i _ _ Hge
                  (floats_lookup _ _ _ Hc) (floats_lookup _ _ _ Hc0)).
Qed.

Lemma rate_of_change_formula_witness :
  let s' := (add_momentum_indicators (K := reference_kernels) (__init__ sixty_days [])).2 in
  cell (df s') "ROC_10" 3 = Some (Float NaN) /\
  cell (df s') "ROC_10" 15 =
    Some (Float (mul (div (sub (of_Z 1817) (of_Z 1808)) (of_Z 1808)) (of_Z 100))).
Proof.
  intros s'.
  destruct (rate_of_change_formula (K := reference_kernels) (__init__ sixty_days []) s'
              (column_of ((fun z => 1800 + (z * z) mod 17 + z) <$> days 60)) 10 3)
    as [H3 _]; [vm_compute; reflexivity | vm_compute; reflexivity | by left
               | vm_compute; lia |].
  destruct (rate_of_change_formula (K := reference_kernels) (__init__ sixty_days []) s'
              (column_of ((fun z => 1800 + (z * z) mod 17 + z) <$> days 60)) 10 15)
    as [_ H15]; [vm_compute; reflexivity | vm_compute; reflexivity | by left
                | vm_compute; lia |].
  split; [apply H3; lia |].
  apply (H15 (Float (of_Z 1817)) (Float (of_Z 1808)));
    [lia | vm_compute; reflexivity | vm_compute; reflexivity].
Defined.

(** ** The columns a pass adds *)

Lemma index_assign_all cols d : index (assign_all cols d) = index d.
Proof.
  revert d. induction cols as [|x r IH]; intros d; [done|].
  unfold assign_all in *. cbn [foldl]. by rewrite IH.
Qed.

Lemma columns_assign_all cols d :
  columns (assign_all cols d) = list_to_map (reverse cols) ∪ columns d.
Proof.
  revert d. induction cols as [|[n c] r IH]; intros d.
  - cbn. by rewrite (left_id_L ∅ (∪)).
  - change (assign_all ((n, c) :: r) d) with (assign_all r (assign n c d)).
    rewrite IH, reverse_cons, list_to_map_app. cbn [assign columns list_to_map foldr].
    rewrite <- (assoc_L (∪)). f_equal.
    by rewrite <- insert_union_l, (left_id_L ∅ (∪)).
Qed.

Lemma dom_assign_all cols d :
  dom (columns (assign_all cols d)) = list_to_set cols.*1 ∪ dom (columns d).
Proof.
  revert d. induction cols as [|[n c] r IH]; intros d.
  - cbn. by rewrite (left_id_L ∅ (∪)).
  - change (assign_all ((n, c) :: r) d) with (assign_all r (assign n c d)).
    rewrite IH. cbn [assign columns fmap list_fmap fst list_to_set].
    rewrite dom_insert_L, !(assoc_L (∪)). f_equal. apply (comm_L (∪)).
Qed.

Lemma dataframe_eq (d1 d2 : DataFrame) :
  index d1 = index d2 -> columns d1 = columns d2 -> d1 = d2.
Proof. destruct d1, d2. cbn. by intros -> ->. Qed.

Lemma assign_all_twice cols d : assign_all cols (assign_all cols d) = assign_all cols d.
Proof.
  apply dataframe_eq.
  - by rewrite !index_assign_all.
  - rewrite !columns_assign_all. by rewrite (assoc_L (∪)), (idemp_L (∪)).
Qed.

(** The columns each pass assigns, in the order of the assignments. *)
Definition feature_columns (p : Pass) : list string :=
  match p with
  | MovingAverages =>
      ["SMA_5"; "SMA_10"; "SMA_20"; "SMA_50"; "SMA_100"; "SMA_200";
       "EMA_9"; "EMA_12"; "EMA_21"; "EMA_26"; "EMA_50";
       "SMA_Cross_20_50"; "EMA_Cross_12_26"]
  | Momentum =>
      ["RSI_14"; "RSI_21"; "Stoch_K"; "Stoch_D"; "MACD"; "MACD_Signal";
       "MACD_Diff"; "ROC_10"; "ROC_20"]
  | Volatility =>
      ["ATR_14"; "ATR_20"; "BB_High"; "BB_Mid"; "BB_Low"; "BB_Width"; "BB_Pct";
       "Volatility_10"; "Volatility_20"; "Volatility_30"]
  | Volume => ["OBV"; "Volume_SMA_10"; "Volume_SMA_20"; "Volume_Ratio"]
  end.

Definition is_cross_signal (name : string) : bool :=
  String.eqb name "SMA_Cross_20_50" || String.eqb name "EMA_Cross_12_26".

Lemma effect_names `{K : Kernels} (p : Pass) (pr : Prices) cols :
  effect p pr = Some cols ->
  p <> Volume \/ is_Some (p_volume pr) ->
  cols.*1 = feature_columns p /\
  registered p pr = List.filter (fun n => negb (is_cross_signal n)) (feature_columns p).
Proof.
  destruct pr as [c h l v]. intros E Hv.
  destruct p; unfold effect, registered in *; cbn [p_close p_high p_low p_volume] in *;
    repeat match type of E with
      | context [mbind _ ?o] => destruct o; cbn [mbind option_bind] in E
      | context [match ?o with Some _ => _ | None => _ end] => destruct o
      | context [decide ?P] => destruct (decide P)
      end;
    try discriminate; try (injection E as <-; by split).
  all: destruct Hv as [? | [? ?]]; done.
Qed.

(** X7. What a pass adds when it returns (the skipped volume pass apart):
    the columns of the table are those it had and the columns of the pass,
    13 for the moving averages, 9 for the momentum, 10 for the volatility and
    4 for the volume; the registry receives the names of these columns in
    the order of the assignments, except SMA_Cross_20_50 and
    EMA_Cross_12_26. *)
Theorem columns_added_by_a_pass `{K : Kernels} (p : Pass) (s s' : State) :
  call p s = (Ok tt, s') ->
  p <> Volume \/ is_Some (columns (df s) !! "Volume") ->
  dom (columns (df s')) = dom (columns (df s)) ∪ list_to_set (feature_columns p) /\
  features_created s' =
    (features_created s
       ++ List.filter (fun n => negb (is_cross_signal n)) (feature_columns p))%list.
Proof.
  intros E Hv. destruct (call_returns p s s' E) as (cols & Ee & ->).
  destruct (effect_names p _ cols Ee Hv) as [Hn Hr].
  unfold after. cbn [df features_created]. split.
  - rewrite dom_assign_all, Hn. apply (comm_L (∪)).
  - by rewrite Hr.
Qed.

Lemma columns_added_by_a_pass_witness :
  let s := __init__ three_days [] in
  let s' := (call (K := reference_kernels) Volume s).2 in
  dom (columns (df s')) =
    dom (columns (df s)) ∪ list_to_set ["OBV"; "Volume_SMA_10"; "Volume_SMA_20"; "Volume_Ratio"] /\
  features_created s' = ["OBV"; "Volume_SMA_10"; "Volume_SMA_20"; "Volume_Ratio"].
Proof.
  intros s s'.
  apply (columns_added_by_a_pass (K := reference_kernels) Volume s s').
  - vm_compute. reflexivity.
  - right. vm_compute. eauto.
Defined.

(** X8. A pass invoked a second time overwrites its columns with the same
    values, so the table is the one the first call left, and appends its
    names to the registry a second time. *)
Theorem pass_twice_overwrites_and_registers_twice `{K : Kernels}
    (p : Pass) (s s1 : State) :
  call p s = (Ok tt, s1) ->
  exists (added : list string) (s2 : State),
    features_created s1 = (features_created s ++ added)%list /\
    call p s1 = (Ok tt, s2) /\
    df s2 = df s1 /\
    features_created s2 = (features_created s ++ added ++ added)%list.
Proof.
  intros E. destruct (call_returns p s s1 E) as (cols & Ee & ->).
  pose proof (prices_after_effect p _ cols (df s) Ee) as Hp.
  exists (registered p (prices (df s))), (after p (after p s cols) cols).
  split; [done|]. split.
  - apply call_effect. cbn [after df]. by rewrite Hp.
  - unfold after. cbn [df features_created]. rewrite Hp, assign_all_twice.
    split; [done|]. by rewrite <- app_assoc.
Qed.

Lemma pass_twice_overwrites_and_registers_twice_witness :
  let s := __init__ sixty_days [] in
  let s1 := (call (K := reference_kernels) Momentum s).2 in
  exists (added : list string) (s2 : State),
    features_created s1 = (features_created s ++ added)%list /\
    call (K := reference_kernels) Momentum s1 = (Ok tt, s2) /\
    df s2 = df s1 /\
    features_created s2 = (features_created s ++ added ++ added)%list.
Proof.
  intros s s1.
  apply (pass_twice_overwrites_and_registers_twice (K := reference_kernels) Momentum s s1).
  vm_compute. reflexivity.
Defined.

(** ** What no pass does *)

(** The names of all the columns the passes assign. *)
Definition feature_names : list string :=
  (feature_columns MovingAverages ++ feature_columns Momentum
     ++ feature_columns Volatility ++ feature_columns Volume)%list.

Definition is_feature (name : string) : bool :=
  existsb (String.eqb name) feature_names.

Lemma is_feature_elem_of name : is_feature name = true <-> name ∈ feature_names.
Proof.
  unfold is_feature. rewrite existsb_exists, list_elem_of_In. split.
  - intros (n & Hn & E). apply String.eqb_eq in E. by subst.
  - intros Hn. exists name. split; [done|]. apply String.eqb_refl.
Qed.

(** A property of the state that the assignment of a feature column, the
    registration of names and printing keep is kept by every pass, whether
    the pass returns or raises. *)
Section Invariants.
Context `{K : Kernels} (I : State -> Prop).
Hypothesis I_setitem :
  forall name c s, is_feature name = true -> I s -> I (setitem name c s).2.
Hypothesis I_features_extend : forall names s, I s -> I (features_extend names s).2.
Hypothesis I_print : forall line s, I s -> I (print line s).2.

Lemma kept_getitem name : hoare I (getitem name) (fun _ => True).
Proof. intros s Hs. unfold getitem. by destruct (columns (df s) !! name). Qed.

Lemma kept_setitem name c :
  is_feature name = true -> hoare I (setitem name c) (fun _ => True).
Proof using I_setitem. intros Hn s Hs. split; [by apply I_setitem | done]. Qed.

Lemma kept_has_column name : hoare I (has_column name) (fun _ => True).
Proof. intros s Hs. done. Qed.

Lemma kept_features_extend names : hoare I (features_extend names) (fun _ => True).
Proof using I_features_extend. intros s Hs. split; [by apply I_features_extend | done]. Qed.

Lemma kept_print line : hoare I (print line) (fun _ => True).
Proof using I_print. intros s Hs. split; [by apply I_print | done]. Qed.

Ltac kprim :=
  lazymatch goal with
  | |- hoare _ (getitem _) _ => apply kept_getitem
  | |- hoare _ (setitem _ _) _ => apply kept_setitem; reflexivity
  | |- hoare _ (has_column _) _ => apply kept_has_column
  | |- hoare _ (features_extend _) _ => apply kept_features_extend
  | |- hoare _ (features_append _) _ => apply kept_features_extend
  | |- hoare _ (print _) _ => apply kept_print
  | |- hoare _ (ret _) _ => apply (hoare_ret _ _ (fun _ => True)); done
  | |- hoare _ (lift _) _ => apply (hoare_lift _ _ (fun _ => True)); done
  end.

Ltac kstep :=
  lazymatch goal with
  | |- hoare _ (bind (bind _ _) _) _ => eapply hoare_bind; [ | intros ? ?]
  | |- hoare _ (bind _ _) _ => eapply hoare_bind; [kprim | intros ? ?]
  | |- hoare _ (if _ then _ else _) _ => apply hoare_if
  | |- _ => kprim
  end.

Ltac kept := cbn [for_each]; names; repeat kstep.

Lemma kept_add_moving_averages : hoare I add_moving_averages (fun _ => True).
Proof using All. unfold add_moving_averages. kept. Qed.

Lemma kept_add_momentum_indicators : hoare I add_momentum_indicators (fun _ => True).
Proof using All. unfold add_momentum_indicators. kept. Qed.

Lemma kept_add_volatility_indicators : hoare I add_volatility_indicators (fun _ => True).
Proof using All. unfold add_volatility_indicators. kept. Qed.

Lemma kept_add_volume_indicators : hoare I add_volume_indicators (fun _ => True).
Proof using All. unfold add_volume_indicators. kept. Qed.

Lemma kept_run ps s : I s -> I (run ps s).2.
Proof using All.
  intros Hs. apply (hoare_for_each I ps call); [|done].
  intros [].
  - apply kept_add_moving_averages.
  - apply kept_add_momentum_indicators.
  - apply kept_add_volatility_indicators.
  - apply kept_add_volume_indicators.
Qed.

End Invariants.

(** X9. No sequence of passes, whether it returns or raises, changes a
    column that is not one of the 36 feature columns: the columns Open,
    High, Low, Close and Volume of the table, and every other column of the
    caller with a name of its own, keep their values. *)
Theorem other_columns_are_kept `{K : Kernels} (ps : list Pass) (s : State) (name : string) :
  name ∉ feature_names ->
  columns (df (run ps s).2) !! name = columns (df s) !! name.
Proof.
  intros Hn.
  apply (kept_run (fun s' => columns (df s') !! name = columns (df s) !! name));
    try done.
  intros n c s' Hf Hs'. cbn [setitem snd df assign columns].
  rewrite lookup_insert_ne; [done|].
  intros ->. by apply Hn, is_feature_elem_of.
Qed.

Lemma other_columns_are_kept_witness :
  columns (df (run (K := reference_kernels) [MovingAverages; Volatility; Volume]
                 (__init__ three_days [])).2) !! "Close"
    = Some (column_of [1850; 1862; 1857]).
Proof.
  rewrite (other_columns_are_kept (K := reference_kernels)
             [MovingAverages; Volatility; Volume] (__init__ three_days []) "Close").
  - reflexivity.
  - intros H. apply is_feature_elem_of in H. vm_compute in H. discriminate H.
Defined.

(** X10. No sequence of passes, whether it returns or raises, removes
    anything: every column of the table is still a column afterwards, and
    the registry as it was is a prefix of the registry afterwards. *)
Theorem passes_remove_nothing `{K : Kernels} (ps : list Pass) (s : State) :
  (forall name, is_Some (columns (df s) !! name) ->
     is_Some (columns (df (run ps s).2) !! name)) /\
  features_created s `prefix_of` features_created (run ps s).2.
Proof.
  split.
  - intros name Hn.
    apply (kept_run (fun s' => is_Some (columns (df s') !! name))); try done.
    intros n c s' _ Hs'. cbn [setitem snd df assign columns].
    apply lookup_insert_is_Some'. by right.
  - apply (kept_run (fun s' => features_created s `prefix_of` features_created s'));
      try done.
    intros names s' Hs'. cbn [features_extend snd features_created].
    by apply prefix_app_r.
Qed.

(** ** The registry and the table *)

(** [wp m Q E s]: from [s] the body [m] returns a value and a state in [Q],
    or raises in a state in [E]. *)
Definition wp {A} (m : M A) (Q : A -> State -> Prop) (E : State -> Prop) (s : State) : Prop :=
  match m s with
  | (Ok a, s') => Q a s'
  | (Raise _, s') => E s'
  end.

Lemma wp_bind {A B} (m : M A) (k : A -> M B) Q E s :
  wp m (fun a s' => wp (k a) Q E s') E s -> wp (bind m k) Q E s.
Proof. unfold wp, bind. by destruct (m s) as [[a|e] s']. Qed.

Lemma wp_ret {A} (a : A) (Q : A -> State -> Prop) E s : Q a s -> wp (ret a) Q E s.
Proof. done. Qed.

Lemma wp_getitem name (Q : Series -> State -> Prop) E s :
  (forall c, columns (df s) !! name = Some c -> Q c s) ->
  (columns (df s) !! name = None -> E s) ->
  wp (getitem name) Q E s.
Proof.
  intros HQ HE. unfold wp, getitem.
  destruct (columns (df s) !! name) as [c|]; [by apply HQ | by apply HE].
Qed.

Lemma wp_setitem name c (Q : unit -> State -> Prop) E s :
  Q tt (setitem name c s).2 -> wp (setitem name c) Q E s.
Proof. done. Qed.

Lemma wp_features_extend names (Q : unit -> State -> Prop) E s :
  Q tt (features_extend names s).2 -> wp (features_extend names) Q E s.
Proof. done. Qed.

Lemma wp_print line (Q : unit -> State -> Prop) E s :
  Q tt (print line s).2 -> wp (print line) Q E s.
Proof. done. Qed.

Lemma wp_has_column name (Q : bool -> State -> Prop) E s :
  (forall b, Q b s) -> wp (has_column name) Q E s.
Proof. intros HQ. apply HQ. Qed.

Lemma wp_lift {A} (o : outcome A) (Q : A -> State -> Prop) E s :
  (forall a, Q a s) -> E s -> wp (lift o) Q E s.
Proof. intros HQ HE. unfold wp, lift. by destruct o. Qed.

Lemma wp_if {A} (b : bool) (m1 m2 : M A) Q E s :
  wp m1 Q E s -> wp m2 Q E s -> wp (if b then m1 else m2) Q E s.
Proof. by destruct b. Qed.

Lemma wp_for_each {A} (xs : list A) (body : A -> M unit) (J : State -> Prop) s :
  (forall x s', J s' -> wp (body x) (fun _ => J) J s') ->
  J s -> wp (for_each xs body) (fun _ => J) J s.
Proof.
  intros Hb. revert s. induction xs as [|x r IH]; intros s Hs; cbn [for_each].
  - by apply wp_ret.
  - apply wp_bind. specialize (Hb x s Hs). unfold wp in *.
    destruct (body x s) as [[[]|e] s']; [by apply IH | done].
Qed.

(** Every name of the registry is the name of a column of the table. *)
Definition registry_in_table (s : State) : Prop :=
  Forall (fun name => is_Some (columns (df s) !! name)) (features_created s).

Ltac wp_step :=
  lazymatch goal with
  | |- wp (bind _ _) _ _ _ => apply wp_bind
  | |- wp (getitem _) _ _ _ => apply wp_getitem; [intros ? _ | intros _]
  | |- wp (lift _) _ _ _ => apply wp_lift; [intros ? |]
  | |- wp (if _ then _ else _) _ _ _ => apply wp_if
  | |- wp (ret _) _ _ _ => apply wp_ret
  | |- wp (setitem _ _) _ _ _ => apply wp_setitem
  | |- wp (features_extend _) _ _ _ => apply wp_features_extend
  | |- wp (features_append _) _ _ _ => apply wp_features_extend
  | |- wp (print _) _ _ _ => apply wp_print
  | |- wp (has_column _) _ _ _ => apply wp_has_column; intros ?
  end;
  cbv beta;
  cbn [setitem features_extend print snd df columns features_created stdout].

(** The registry of a state reached from [s] by assignments and
    registrations of assigned names. *)
Ltac registry_solved H :=
  unfold registry_in_table; cbn [df columns features_created stdout assign];
  repeat (apply Forall_app_2);
  repeat (apply Forall_cons_2); try apply Forall_nil_2;
  first
    [ eapply Forall_impl; [exact H|]; intros ? ?; cbv beta;
      repeat (apply lookup_insert_is_Some'; right); assumption
    | lookups; by eexists ].

Section Registry.
Context `{K : Kernels}.

Ltac registry H := cbn [for_each]; names; repeat wp_step; registry_solved H.

Lemma registry_add_moving_averages s :
  registry_in_table s -> wp add_moving_averages (fun _ => registry_in_table) registry_in_table s.
Proof. intros H. unfold add_moving_averages. registry H. Qed.

Lemma registry_add_momentum_indicators s :
  registry_in_table s ->
  wp add_momentum_indicators (fun _ => registry_in_table) registry_in_table s.
Proof. intros H. unfold add_momentum_indicators. registry H. Qed.

Lemma registry_add_volatility_indicators s :
  registry_in_table s ->
  wp add_volatility_indicators (fun _ => registry_in_table) registry_in_table s.
Proof. intros H. unfold add_volatility_indicators. registry H. Qed.

Lemma registry_add_volume_indicators s :
  registry_in_table s ->
  wp add_volume_indicators (fun _ => registry_in_table) registry_in_table s.
Proof. intros H. unfold add_volume_indicators. registry H. Qed.

End Registry.

(** X11. From a state where every name of the registry is a column of the
    table, as that of a new builder, every sequence of passes, whether it
    returns or raises, leads to such a state: a registered name is always
    the name of a column. *)
Theorem registered_names_are_columns `{K : Kernels} (ps : list Pass) (s : State) :
  registry_in_table s -> registry_in_table (run ps s).2.
Proof.
  intros H.
  assert (wp (run ps) (fun _ => registry_in_table) registry_in_table s) as Hw.
  { apply wp_for_each; [|done]. intros [] s' Hs'.
    - by apply registry_add_moving_averages.
    - by apply registry_add_momentum_indicators.
    - by apply registry_add_volatility_indicators.
    - by apply registry_add_volume_indicators. }
  unfold wp in Hw. by destruct (run ps s) as [[[]|e] s'].
Qed.

Lemma registered_names_are_columns_witness :
  registry_in_table
    (run (K := reference_kernels) [MovingAverages; Momentum; Volatility]
       (__init__ three_days [])).2.
Proof.
  apply (registered_names_are_columns (K := reference_kernels)).
  apply Forall_nil_2.
Defined.

(** ** The values of the signals *)

Lemma cross_values (a b : list float) (i : nat) (v : Scalar) :
  cross a b !! i = Some v -> v = Int 0 \/ v = Int 1.
Proof.
  unfold cross, np_where, full. cbv zeta. intros H.
  apply (ewise_lookup_inv _ _ _ i v) in H as (c & [x y] & _ & Hp & ->).
  apply (ewise_lookup_inv pair _ _ i (x, y)) in Hp as (x' & y' & Hx & Hy & [= -> ->]).
  apply lookup_replicate_1 in Hx as [-> _]. apply lookup_replicate_1 in Hy as [-> _].
  destruct c; cbn; auto.
Qed.

(** X12. After [add_moving_averages], every cell of SMA_Cross_20_50 and of
    EMA_Cross_12_26 is the integer 0 or the integer 1: the signals are never
    NaN and never a float. *)
Theorem cross_signals_are_binary `{K : Kernels}
    (s s' : State) (name : string) (i : nat) (v : Scalar) :
  add_moving_averages s = (Ok tt, s') ->
  name = "SMA_Cross_20_50" \/ name = "EMA_Cross_12_26" ->
  cell (df s') name i = Some v ->
  v = Int 0 \/ v = Int 1.
Proof.
  intros E Hn Hv.
  destruct (add_moving_averages_returns s s' E) as (close & Ec & ->).
  destruct Hn as [-> | ->]; cells; by eapply cross_values.
Qed.

Lemma cross_signals_are_binary_witness :
  let s' := (add_moving_averages (K := reference_kernels) (__init__ sixty_days [])).2 in
  cell (df s') "EMA_Cross_12_26" 40 = Some (Int 0) \/
  cell (df s') "EMA_Cross_12_26" 40 = Some (Int 1).
Proof.
  intros s'.
  destruct (cross_signals_are_binary (K := reference_kernels) (__init__ sixty_days []) s'
              "EMA_Cross_12_26" 40
              (default (Int 2) (cell (df s') "EMA_Cross_12_26" 40)))
    as [H | H]; [vm_compute; reflexivity | by right | vm_compute; reflexivity | |].
  - left. vm_compute in H. discriminate H.
  - right. vm_compute. reflexivity.
Defined.

(** ** Features that repeat one another *)

Lemma run_two `{K : Kernels} (p q : Pass) (s s' : State) :
  run [p; q] s = (Ok tt, s') ->
  exists s1, call p s = (Ok tt, s1) /\ call q s1 = (Ok tt, s').
Proof.
  intros E. apply run_cons in E as (s1 & Ep & E).
  apply run_cons in E as (s2 & Eq' & E). apply run_nil in E as ->. eauto.
Qed.

Lemma macd_after_moving_averages `{K : Kernels} (s s' : State) (i : nat) (a b : float) :
  run [MovingAverages; Momentum] s = (Ok tt, s') ->
  cell (df s') "EMA_12" i = Some (Float a) ->
  cell (df s') "EMA_26" i = Some (Float b) ->
  cell (df s') "MACD" i = Some (Float (sub a b)).
Proof.
  intros E Ha Hb. apply run_two in E as (s1 & E1 & E2). cbn [call] in E1, E2.
  destruct (add_moving_averages_returns s s1 E1) as (close & Ec & ->).
  destruct (add_momentum_indicators_returns _ s' E2) as (high & low & close' & _ & _ & Ec' & ->).
  cells. assert (close' = close) as -> by congruence.
  apply series_lookup_Float in Ha, Hb. rewrite series_lookup.
  unfold TA.macd, TA.MACD_init. cbn [TA._macd].
  unfold TA.ema_indicator in Ha, Hb.
  by rewrite (lookup_ewise sub _ _ i a b Ha Hb).
Qed.

(** X13. Once the moving averages and the momentum indicators were added,
    in either order, MACD is at every row the binary64 difference of
    EMA_12 and EMA_26: the MACD line repeats the two averages. *)
Theorem macd_is_ema_12_minus_ema_26 `{K : Kernels}
    (ps : list Pass) (s s' : State) (i : nat) (a b : float) :
  ps = [MovingAverages; Momentum] \/ ps = [Momentum; MovingAverages] ->
  run ps s = (Ok tt, s') ->
  cell (df s') "EMA_12" i = Some (Float a) ->
  cell (df s') "EMA_26" i = Some (Float b) ->
  cell (df s') "MACD" i = Some (Float (sub a b)).
Proof.
  intros [-> | ->] E Ha Hb.
  - by apply (macd_after_moving_averages s).
  - destruct (run_permutation [Momentum; MovingAverages] [MovingAverages; Momentum]
                (perm_swap _ _ _) s s s' (same_table_refl s) E) as (t & Et & [Hd _]).
    unfold cell in *. rewrite Hd in *. by apply (macd_after_moving_averages s t).
Qed.

Lemma macd_is_ema_12_minus_ema_26_witness :
  let s' := (run (K := reference_kernels) [Momentum; MovingAverages]
               (__init__ sixty_days [])).2 in
  exists a b : float,
    cell (df s') "EMA_12" 50 = Some (Float a) /\
    cell (df s') "EMA_26" 50 = Some (Float b) /\
    cell (df s') "MACD" 50 = Some (Float (sub a b)).
Proof.
  intros s'.
  pose (a := to_float (default (Int 0) (cell (df s') "EMA_12" 50))).
  pose (b := to_float (default (Int 0) (cell (df s') "EMA_26" 50))).
  exists a, b.
  assert (cell (df s') "EMA_12" 50 = Some (Float a)) as Ha by (vm_compute; reflexivity).
  assert (cell (df s') "EMA_26" 50 = Some (Float b)) as Hb by (vm_compute; reflexivity).
  split; [exact Ha | split; [exact Hb |]].
  apply (macd_is_ema_12_minus_ema_26 (K := reference_kernels)
           [Momentum; MovingAverages] (__init__ sixty_days []) s' 50 a b);
    [by right | vm_compute; reflexivity | exact Ha | exact Hb].
Defined.

Lemma bb_mid_after_moving_averages `{K : Kernels} (s s' : State) :
  run [MovingAverages; Volatility] s = (Ok tt, s') ->
  is_Some (columns (df s') !! "SMA_20") /\
  columns (df s') !! "BB_Mid" = columns (df s') !! "SMA_20".
Proof.
  intros E. apply run_two in E as (s1 & E1 & E2). cbn [call] in E1.
  destruct (add_moving_averages_returns s s1 E1) as (close & Ec & ->).
  destruct (call_returns Volatility _ s' E2) as (cols & Ee & ->).
  cbn [after df] in Ee.
  rewrite (prices_after_effect MovingAverages (prices (df s))
             (moving_average_columns (floats close)) (df s)) in Ee
    by (unfold effect, prices; cbn [p_close]; by rewrite Ec).
  unfold effect, prices in Ee; cbn [p_close p_high p_low] in Ee. rewrite Ec in Ee.
  destruct (columns (df s) !! "High") as [high|]; [|done].
  destruct (columns (df s) !! "Low") as [low|]; [|done].
  cbn [mbind option_bind] in Ee. destruct (decide _); [|done]. injection Ee as <-.
  cells. split; [by eexists | done].
Qed.

(** X14. Once the moving averages and the volatility indicators were added,
    in either order, the column BB_Mid is the column SMA_20: the middle
    Bollinger band repeats the 20-row average. *)
Theorem bb_mid_is_sma_20 `{K : Kernels} (ps : list Pass) (s s' : State) :
  ps = [MovingAverages; Volatility] \/ ps = [Volatility; MovingAverages] ->
  run ps s = (Ok tt, s') ->
  is_Some (columns (df s') !! "SMA_20") /\
  columns (df s') !! "BB_Mid" = columns (df s') !! "SMA_20".
Proof.
  intros [-> | ->] E.
  - by apply (bb_mid_after_moving_averages s).
  - destruct (run_permutation [Volatility; MovingAverages] [MovingAverages; Volatility]
                (perm_swap _ _ _) s s s' (same_table_refl s) E) as (t & Et & [Hd _]).
    rewrite Hd. by apply (bb_mid_after_moving_averages s).
Qed.

Lemma bb_mid_is_sma_20_witness :
  let s' := (run (K := reference_kernels) [Volatility; MovingAverages]
               (__init__ sixty_days [])).2 in
  is_Some (columns (df s') !! "SMA_20") /\
  columns (df s') !! "BB_Mid" = columns (df s') !! "SMA_20".
Proof.
  intros s'.
  apply (bb_mid_is_sma_20 (K := reference_kernels)
           [Volatility; MovingAverages] (__init__ sixty_days []) s');
    [by right | vm_compute; reflexivity].
Defined.

(** ** Two builders on one table *)

(** X15. Two builders made from the same table of the caller work on two
    copies: every sequence of passes invoked on the first leaves the table
    of the second, and that of the caller, as they were. *)
Theorem builders_do_not_share_a_table `{K : Kernels}
    (w : World) (caller_df : loc) (d : DataFrame) (ps : list Pass) :
  heap w !! caller_df = Some d ->
  exists b1 w1 b2 w2 r b1' w',
    construct caller_df w = Some (b1, w1) /\
    construct caller_df w1 = Some (b2, w2) /\
    self_df b1 <> self_df b2 /\
    invoke_all ps b1 w2 = Some (r, b1', w') /\
    heap w' !! self_df b2 = Some (copy d) /\
    heap w' !! caller_df = Some d.
Proof.
  intros Hd.
  pose (l1 := fresh (dom (heap w))).
  pose (b1 := {| self_df := l1; self_features_created := [] |}).
  pose (w1 := {| heap := <[l1 := copy d]> (heap w); console := console w |}).
  pose (l2 := fresh (dom (heap w1))).
  pose (b2 := {| self_df := l2; self_features_created := [] |}).
  pose (w2 := {| heap := <[l2 := copy d]> (heap w1); console := console w1 |}).
  assert (l1 <> caller_df) as Hl1.
  { intros E. apply (is_fresh (dom (heap w))). apply elem_of_dom.
    exists d. fold l1. by rewrite E. }
  assert (heap w1 !! caller_df = Some d) as Hd1
    by (cbn [heap w1]; by rewrite lookup_insert_ne).
  assert (l2 <> caller_df) as Hl2.
  { intros E. apply (is_fresh (dom (heap w1))). apply elem_of_dom.
    exists d. fold l2. by rewrite E. }
  assert (l2 <> l1) as Hl21.
  { intros E. apply (is_fresh (dom (heap w1))). apply elem_of_dom.
    exists (copy d). fold l2. rewrite E. cbn [heap w1]. by rewrite lookup_insert_eq. }
  assert (construct caller_df w = Some (b1, w1)) as C1
    by (unfold construct; by rewrite Hd).
  assert (construct caller_df w1 = Some (b2, w2)) as C2
    by (unfold construct; by rewrite Hd1).
  assert (is_Some (heap w2 !! self_df b1)) as Hb1.
  { cbn [heap w2 self_df b1]. rewrite lookup_insert_ne by done.
    cbn [heap w1]. rewrite lookup_insert_eq. eauto. }
  destruct (invoke_all_frame ps b1 w2 l2) as (r & b1' & w' & E & H2); [done | done |].
  destruct (invoke_all_frame ps b1 w2 caller_df) as (r' & b1'' & w'' & E' & Hc);
    [by apply not_eq_sym | done |].
  rewrite E in E'. injection E' as <- <- <-.
  exists b1, w1, b2, w2, r, b1', w'.
  split; [done|]. split; [done|]. split; [by apply not_eq_sym|]. split; [done|]. split.
  - cbn [self_df b2]. rewrite H2. cbn [heap w2]. by rewrite lookup_insert_eq.
  - rewrite Hc. cbn [heap w2]. by rewrite lookup_insert_ne.
Qed.

Lemma builders_do_not_share_a_table_witness :
  exists b1 w1 b2 w2 r b1' w',
    construct 1%positive caller_world = Some (b1, w1) /\
    construct 1%positive w1 = Some (b2, w2) /\
    self_df b1 <> self_df b2 /\
    invoke_all (K := reference_kernels) [MovingAverages; Volume] b1 w2
      = Some (r, b1', w') /\
    heap w' !! self_df b2 = Some (copy three_days) /\
    heap w' !! 1%positive = Some three_days.
Proof.
  apply (builders_do_not_share_a_table (K := reference_kernels) caller_world 1%positive
           three_days [MovingAverages; Volume]).
  reflexivity.
Defined.

(** ** The exceptions of a pass *)

(** The exceptions each pass can raise. *)
Definition exceptions_of (p : Pass) : list exn :=
  match p with
  | MovingAverages => [KeyError "Close"]
  | Momentum => [KeyError "Close"; KeyError "High"; KeyError "Low"]
  | Volatility => [KeyError "High"; KeyError "Low"; KeyError "Close"; IndexError]
  | Volume => [KeyError "Close"]
  end.

Ltac outcome_of pass :=
  eassert (pass = _) as ->
    by (first [ names; repeat exec_step; exec_last; reflexivity
              | names; repeat exec_step; reflexivity ]).

(** X16. The only exceptions of a pass are the [KeyError] of a price column
    it reads (Close, or High and Low for the momentum and the volatility)
    and, for the volatility, the [IndexError] of the average true range on
    a table that is too short; no pass raises for a column it assigns
    itself. *)
Theorem exceptions_of_a_pass `{K : Kernels} (p : Pass) (s : State) (e : exn) :
  (call p s).1 = Raise e -> In e (exceptions_of p).
Proof.
  destruct p; cbn [call exceptions_of].
  - unfold add_moving_averages.
    destruct (columns (df s) !! "Close") as [close|] eqn:Ec.
    all: match goal with |- (?m ?st).1 = _ -> _ => outcome_of (m st) end.
    all: cbn; intros [=]; subst; tauto.
  - unfold add_momentum_indicators.
    destruct (columns (df s) !! "Close") as [close|] eqn:Ec;
      [destruct (columns (df s) !! "High") as [high|] eqn:Eh;
       [destruct (columns (df s) !! "Low") as [low|] eqn:El|]|].
    all: match goal with |- (?m ?st).1 = _ -> _ => outcome_of (m st) end.
    all: cbn; intros [=]; subst; tauto.
  - unfold add_volatility_indicators.
    destruct (columns (df s) !! "High") as [high|] eqn:Eh;
      [destruct (columns (df s) !! "Low") as [low|] eqn:El;
       [destruct (columns (df s) !! "Close") as [close|] eqn:Ec;
        [destruct (decide (20 <= length close)%nat);
         [|destruct (decide (14 <= length close)%nat)]|]|]|].
    all: match goal with |- (?m ?st).1 = _ -> _ => outcome_of (m st) end.
    all: cbn; intros [=]; subst; tauto.
  - unfold add_volume_indicators.
    rewrite (bind_ok _ _ _ _ _ (has_column_ok _ _)).
    destruct (columns (df s) !! "Volume") as [volume|] eqn:Ev.
    + rewrite bool_decide_eq_true_2 by eauto. cbn [negb].
      destruct (columns (df s) !! "Close") as [close|] eqn:Ec.
      all: match goal with |- (?m ?st).1 = _ -> _ => outcome_of (m st) end.
      all: cbn; intros [=]; subst; tauto.
    + rewrite bool_decide_eq_false_2 by (by intros [? ?]). cbn [negb].
      cbn. intros [=].
Qed.

Lemma exceptions_of_a_pass_witness :
  In (KeyError "High") (exceptions_of Momentum).
Proof.
  apply (exceptions_of_a_pass (K := reference_kernels) Momentum (__init__ close_only [])).
  vm_compute. reflexivity.
Defined.

(** ** What a pass reads *)

Lemma lookup_assign_all_in name cols d d' :
  name ∈ cols.*1 ->
  columns (assign_all cols d) !! name = columns (assign_all cols d') !! name.
Proof.
  intros Hn. rewrite !columns_assign_all.
  assert (is_Some ((list_to_map (reverse cols) : gmap string Series) !! name)) as Hs.
  { destruct (_ !! name) eqn:E; [eauto|].
    apply not_elem_of_list_to_map_2 in E. destruct E.
    by rewrite fmap_reverse, elem_of_reverse. }
  by rewrite !lookup_union_l'.
Qed.

Lemma lookup_assign_all_notin name cols d :
  name ∉ cols.*1 -> columns (assign_all cols d) !! name = columns d !! name.
Proof.
  intros Hn. rewrite columns_assign_all. apply lookup_union_r.
  apply not_elem_of_list_to_map_1. by rewrite fmap_reverse, elem_of_reverse.
Qed.

Lemma feature_columns_are_features (q : Pass) (name : string) :
  name ∈ feature_columns q -> is_feature name = true.
Proof.
  intros H. apply is_feature_elem_of. unfold feature_names. rewrite !elem_of_app.
  destruct q; tauto.
Qed.

Lemma feature_columns_disjoint (p q : Pass) (name : string) :
  p <> q -> name ∈ feature_columns p -> name ∈ feature_columns q -> False.
Proof.
  intros N Hp Hq.
  assert (disjoint_names (feature_columns p) (feature_columns q) = true) as D
    by (destruct p, q; done).
  unfold disjoint_names in D. rewrite forallb_forall in D.
  apply list_elem_of_In in Hp, Hq. specialize (D name Hp).
  rewrite forallb_forall in D. specialize (D name Hq).
  by rewrite String.eqb_refl in D.
Qed.

(** Assigning feature columns does not change the price and volume
    columns. *)
Lemma prices_assign_features cols d :
  Forall (fun n => is_feature n = true) cols.*1 ->
  prices (assign_all cols d) = prices d.
Proof.
  intros Hf. rewrite Forall_forall in Hf.
  unfold prices. rewrite !lookup_assign_all_notin; [done|..];
    intros H; apply Hf in H; vm_compute in H; discriminate H.
Qed.

(** C8, amended.  The passes may be invoked in any order: a sequence of
    passes returns if and only if every reordering of it returns; and for
    every pair of different passes, the volume pass and the moving-average
    pass included, neither reads a column the other creates: whatever the
    columns of the one hold, the other returns or raises as without them,
    and assigns the same values to its own columns. *)
Theorem passes_do_not_read_each_other `{K : Kernels}
    (ps ps' : list Pass) (p q : Pass) (s : State) (cols : list (string * Series)) :
  ps ≡ₚ ps' ->
  p <> q ->
  Forall (fun name => name ∈ feature_columns q) cols.*1 ->
  let s1 := {| df := assign_all cols (df s);
               features_created := features_created s;
               stdout := stdout s |} in
  ((run ps s).1 = Ok tt <-> (run ps' s).1 = Ok tt) /\
  ((call p s1).1 = Ok tt <-> (call p s).1 = Ok tt) /\
  ((call p s).1 = Ok tt ->
   forall name, name ∈ feature_columns p ->
     columns (df (call p s1).2) !! name = columns (df (call p s).2) !! name).
Proof.
  intros Hp N Hc s1.
  assert (forall l l' : list Pass, l ≡ₚ l' -> (run l s).1 = Ok tt -> (run l' s).1 = Ok tt) as H.
  { intros l l' Hl E. destruct (run l s) as [r t] eqn:El. cbn [fst] in E. subst r.
    destruct (run_permutation l l' Hl s s t (same_table_refl s) El) as (t' & -> & _).
    done. }
  assert (prices (df s1) = prices (df s)) as Hpr.
  { cbn [s1 df]. apply prices_assign_features.
    eapply Forall_impl; [exact Hc|]. intros name. apply feature_columns_are_features. }
  split; [split; intros E; [by apply (H ps ps') | by apply (H ps' ps)]|].
  split; [by rewrite !returns_iff_effect, Hpr|].
  intros E name Hn. apply returns_iff_effect in E as [cp Ecp].
  rewrite (call_effect p s cp Ecp), (call_effect p s1 cp) by (by rewrite Hpr).
  cbn [snd after df s1].
  destruct (decide (name ∈ cp.*1)) as [Hin | Hout].
  - by apply lookup_assign_all_in.
  - rewrite !(lookup_assign_all_notin name cp) by done.
    apply lookup_assign_all_notin. intros Hq.
    rewrite Forall_forall in Hc. by apply (feature_columns_disjoint p q name N Hn), Hc.
Qed.

Lemma passes_do_not_read_each_other_witness :
  let s := __init__ three_days [] in
  let s1 := {| df := assign_all [("SMA_20", column_of [7; 8; 9])] (df s);
               features_created := features_created s;
               stdout := stdout s |} in
  (call (K := reference_kernels) Volume s1).1 = Ok tt /\
  columns (df (call (K := reference_kernels) Volume s1).2) !! "Volume_Ratio"
    = columns (df (call (K := reference_kernels) Volume s).2) !! "Volume_Ratio".
Proof.
  intros s s1.
  destruct (passes_do_not_read_each_other (K := reference_kernels)
              [MovingAverages; Volume] [Volume; MovingAverages]
              Volume MovingAverages s [("SMA_20", column_of [7; 8; 9])])
    as (_ & [_ H2] & H3).
  - apply perm_swap.
  - discriminate.
  - apply Forall_cons_2; [|apply Forall_nil_2].
    apply list_elem_of_In. cbn. tauto.
  - assert ((call (K := reference_kernels) Volume s).1 = Ok tt) as E
      by (vm_compute; reflexivity).
    split; [exact (H2 E)|].
    apply (H3 E). apply list_elem_of_In. cbn. tauto.
Defined.
